(** * Gourmand recipe card: the ingredient tree model of [reccard.py]

    A shallow embedding of the toolkit-independent part of
    [src/gourmand/reccard.py]: the ingredient tree held in a
    [Gtk.TreeStore], the persistent references into it, the undoable
    editing operations of [IngredientController] and [IngredientTreeUI],
    the commit pass that syncs the tree with the database, the recipe
    selector and the image box.

    Conventions.
    - Python values are an inductive type with Python's [==] and
      truthiness written out.
    - A [Gtk.TreeStore] is a forest of rows; a [Gtk.TreeIter] is the path of
      the row it designates (the code never keeps an iterator across a
      structural change of the store without looking it up again).
    - Dictionaries with string keys are [gmap string pyval].
    - Calls into the database layer ([rg.rd]) are recorded in a log. *)

From Stdlib Require Import ZArith Ascii String.
From stdpp Require Import base option list gmap strings pretty.

Local Open Scope string_scope.
Local Open Scope list_scope.

(** ** Python values *)

(** Scalars that occur as dictionary values and ingredient attributes.
    Amounts produced by [parse_range] are numbers; the development never
    computes with them, so integers stand for all numbers. *)
Inductive pyval :=
| PNone
| PBool (b : bool)
| PInt (z : Z)
| PStr (s : string).

#[global] Instance pyval_eq_dec : EqDecision pyval.
Proof. solve_decision. Defined.

(** Python's [==] on scalars ([True == 1], [False == 0]). *)
Definition pyval_eq (a b : pyval) : bool :=
  match a, b with
  | PNone, PNone => true
  | PBool x, PBool y => bool_decide (x = y)
  | PInt x, PInt y => bool_decide (x = y)
  | PBool x, PInt y | PInt y, PBool x =>
      bool_decide (y = (if x then 1 else 0)%Z)
  | PStr x, PStr y => bool_decide (x = y)
  | _, _ => false
  end.

(** Python truthiness of a scalar. *)
Definition pyval_truthy (a : pyval) : bool :=
  match a with
  | PNone => false
  | PBool b => b
  | PInt z => negb (Z.eqb z 0)
  | PStr s => negb (String.eqb s "")
  end.

(** [class RecRef]: a reference to another recipe.  The class defines no
    [__eq__], so two references are equal when they are the same object;
    [rr_oid] is the object's identity. *)
Record RecRef := mkRecRef {
  rr_oid : nat;
  rr_refid : pyval;
  rr_item : pyval;
  rr_amount : pyval
}.

#[global] Instance RecRef_eq_dec : EqDecision RecRef.
Proof. solve_decision. Defined.

(** [RecRef.__init__(self, refid, title)]. *)
Definition RecRef_init (oid : nat) (refid title : pyval) : RecRef :=
  mkRecRef oid refid title (PInt 1).

(** An ingredient object of the database (a row of the ingredients table)
    with the attributes the recipe card reads. *)
Record Ingredient := mkIngredient {
  ing_id : Z;
  ing_amount : pyval;
  ing_unit : pyval;
  ing_item : pyval;
  ing_ingkey : pyval;
  ing_position : pyval;
  ing_inggroup : pyval;
  ing_optional : pyval;
  ing_deleted : pyval;
  ing_refid : pyval
}.

#[global] Instance Ingredient_eq_dec : EqDecision Ingredient.
Proof. solve_decision. Defined.

(** [getattr(ing, att)] for the attribute names used by the commit pass. *)
Definition ing_getattr (i : Ingredient) (att : string) : option pyval :=
  if String.eqb att "amount" then Some (ing_amount i)
  else if String.eqb att "unit" then Some (ing_unit i)
  else if String.eqb att "item" then Some (ing_item i)
  else if String.eqb att "ingkey" then Some (ing_ingkey i)
  else if String.eqb att "position" then Some (ing_position i)
  else if String.eqb att "inggroup" then Some (ing_inggroup i)
  else if String.eqb att "optional" then Some (ing_optional i)
  else if String.eqb att "deleted" then Some (ing_deleted i)
  else if String.eqb att "refid" then Some (ing_refid i)
  else if String.eqb att "id" then Some (PInt (ing_id i))
  else None.

(** What column 0 of the ingredient model holds: a string for a group
    header, an integer placeholder for a new ingredient, a [RecRef], or an
    ingredient object ([None] in a row that was just created). *)
Inductive pyobj :=
| ONone
| OStr (s : string)
| OInt (n : Z)
| ORecRef (r : RecRef)
| OIng (i : Ingredient).

#[global] Instance pyobj_eq_dec : EqDecision pyobj.
Proof. solve_decision. Defined.

(** Python's [==] on column-0 values: strings and integers by value,
    [RecRef] by identity, database rows by their contents. *)
Definition py_eq (a b : pyobj) : bool :=
  match a, b with
  | ONone, ONone => true
  | OStr x, OStr y => bool_decide (x = y)
  | OInt x, OInt y => bool_decide (x = y)
  | ORecRef x, ORecRef y => bool_decide (rr_oid x = rr_oid y)
  | OIng x, OIng y => bool_decide (x = y)
  | _, _ => false
  end.

Definition py_truthy (a : pyobj) : bool :=
  match a with
  | ONone => false
  | OStr s => negb (String.eqb s "")
  | OInt n => negb (Z.eqb n 0)
  | ORecRef _ => true
  | OIng _ => true
  end.

Definition isinstance_str (a : pyobj) : bool :=
  match a with OStr _ => true | _ => false end.

Definition isinstance_int (a : pyobj) : bool :=
  match a with OInt _ => true | _ => false end.

Definition isinstance_RecRef (a : pyobj) : bool :=
  match a with ORecRef _ => true | _ => false end.

(** Strings and integers hash by value and a [RecRef] by identity; a
    database row is not hashable (the [except TypeError] of
    [get_iter_from_persistent_ref] is there for it). *)
Definition hashable (a : pyobj) : bool :=
  match a with OIng _ => false | _ => true end.

(** ** The tree store *)

(** The five columns of [imodel]: the object, amount, unit and item as
    strings (or [None]), and the optional flag. *)
Record RowData := mkRowData {
  c0 : pyobj;
  c1 : option string;
  c2 : option string;
  c3 : option string;
  c4 : bool
}.

#[global] Instance RowData_eq_dec : EqDecision RowData.
Proof. solve_decision. Defined.

Unset Elimination Schemes.
Inductive Row := Node (d : RowData) (kids : list Row).
Set Elimination Schemes.

Definition row_data (r : Row) : RowData := match r with Node d _ => d end.
Definition row_kids (r : Row) : list Row := match r with Node _ k => k end.

Abbreviation TreeStore := (list Row) (only parsing).

(** A [Gtk.TreeIter], given by the path of its row (never empty). *)
Abbreviation TreePath := (list nat) (only parsing).
Abbreviation TreeIter := (list nat) (only parsing).

(** A row just created by the store: every column unset. *)
Definition empty_row : Row := Node (mkRowData ONone None None None false) [].

(** The rows that sit below the row at path [p] ([p = []]: the top level). *)
Fixpoint siblings (m : list Row) (p : TreePath) : option (list Row) :=
  match p with
  | [] => Some m
  | i :: p' =>
      match m !! i with
      | Some r => siblings (row_kids r) p'
      | None => None
      end
  end.

(** The row an iterator designates. *)
Fixpoint get_row (m : list Row) (p : TreePath) : option Row :=
  match p with
  | [] => None
  | i :: p' =>
      match m !! i with
      | Some r => match p' with [] => Some r | _ => get_row (row_kids r) p' end
      | None => None
      end
  end.

Definition get_data (m : TreeStore) (it : TreeIter) : option RowData :=
  row_data <$> get_row m it.

(** [imodel.get_value(iter, 0)]. *)
Definition get_value0 (m : TreeStore) (it : TreeIter) : option pyobj :=
  c0 <$> get_data m it.

(** Path arithmetic: the parent path and the next sibling's path. *)
Definition path_parent (p : TreePath) : TreePath := removelast p.

Definition path_succ (p : TreePath) : TreePath :=
  match last p with
  | Some i => removelast p ++ [S i]
  | None => []
  end.

(** [imodel.get_iter_first()]. *)
Definition get_iter_first (m : TreeStore) : option TreeIter :=
  match m with [] => None | _ => Some [0] end.

(** [imodel.iter_children(iter)]. *)
Definition iter_children (m : TreeStore) (it : TreeIter) : option TreeIter :=
  match get_row m it with
  | Some (Node _ (_ :: _)) => Some (it ++ [0])
  | _ => None
  end.

(** [imodel.iter_next(iter)]. *)
Definition iter_next (m : TreeStore) (it : TreeIter) : option TreeIter :=
  match get_row m (path_succ it) with
  | Some _ => Some (path_succ it)
  | None => None
  end.

(** [imodel.iter_parent(iter)]. *)
Definition iter_parent (m : TreeStore) (it : TreeIter) : option TreeIter :=
  match path_parent it with
  | [] => None
  | p => match get_row m it with Some _ => Some p | None => None end
  end.

(** [imodel.get_path(iter)] and [imodel.get_iter(path)]. *)
Definition get_path (m : TreeStore) (it : TreeIter) : option TreePath :=
  match get_row m it with Some _ => Some it | None => None end.

Definition get_iter (m : TreeStore) (p : TreePath) : option TreeIter :=
  match get_row m p with Some _ => Some p | None => None end.

(** *** Structural changes of the store *)

(** Apply [f] to the list of rows below the row at path [p]. *)
Fixpoint alter_siblings (f : list Row -> option (list Row))
    (m : list Row) (p : TreePath) : option (list Row) :=
  match p with
  | [] => f m
  | i :: p' =>
      match m !! i with
      | Some (Node d ks) =>
          match alter_siblings f ks p' with
          | Some ks' => Some (<[i := Node d ks']> m)
          | None => None
          end
      | None => None
      end
  end.

Definition insert_row (i : nat) (r : Row) (rs : list Row) : list Row :=
  take i rs ++ r :: drop i rs.

(** [imodel.append(parent)]: a new last row below [parent] ([None]: at
    the top level).  Returns the store and the new row's iterator. *)
Definition ts_append (m : TreeStore) (parent : option TreeIter)
  : option (TreeStore * TreeIter) :=
  let pp := default [] parent in
  match siblings m pp with
  | Some rs =>
      match alter_siblings (fun rs => Some (rs ++ [empty_row])) m pp with
      | Some m' => Some (m', pp ++ [length rs])
      | None => None
      end
  | None => None
  end.

(** [imodel.prepend(None)]: a new first row at the top level. *)
Definition ts_prepend (m : TreeStore) : TreeStore * TreeIter :=
  (empty_row :: m, [0]).

(** [imodel.insert_after(None, sibling, None)]: a new row right after
    [sibling], below the same parent. *)
Definition ts_insert_after (m : TreeStore) (sibling : TreeIter)
  : option (TreeStore * TreeIter) :=
  match get_row m sibling, last sibling with
  | Some _, Some i =>
      match alter_siblings (fun rs => Some (insert_row (S i) empty_row rs))
              m (path_parent sibling) with
      | Some m' => Some (m', path_succ sibling)
      | None => None
      end
  | _, _ => None
  end.

(** [imodel.remove(iter)]: the row goes with everything below it. *)
Definition ts_remove (m : TreeStore) (it : TreeIter) : option TreeStore :=
  match get_row m it, last it with
  | Some _, Some i =>
      alter_siblings (fun rs => Some (delete i rs)) m (path_parent it)
  | _, _ => None
  end.

(** [imodel.set_value(iter, n, v)], as a change of the row's columns. *)
Definition ts_update (m : TreeStore) (it : TreeIter) (f : RowData -> RowData)
  : option TreeStore :=
  match get_row m it, last it with
  | Some (Node d ks), Some i =>
      alter_siblings (fun rs => Some (<[i := Node (f d) ks]> rs))
        m (path_parent it)
  | _, _ => None
  end.

Definition set_c0 (v : pyobj) (d : RowData) : RowData :=
  mkRowData v (c1 d) (c2 d) (c3 d) (c4 d).
Definition set_c1 (v : option string) (d : RowData) : RowData :=
  mkRowData (c0 d) v (c2 d) (c3 d) (c4 d).
Definition set_c2 (v : option string) (d : RowData) : RowData :=
  mkRowData (c0 d) (c1 d) v (c3 d) (c4 d).
Definition set_c3 (v : option string) (d : RowData) : RowData :=
  mkRowData (c0 d) (c1 d) (c2 d) v (c4 d).
Definition set_c4 (v : bool) (d : RowData) : RowData :=
  mkRowData (c0 d) (c1 d) (c2 d) (c3 d) v.

(** Number of rows of a forest, and all its rows in display order
    (depth first, top to bottom). *)
Fixpoint row_size (r : Row) : nat :=
  match r with
  | Node _ ks => S ((fix go (l : list Row) : nat :=
                       match l with [] => 0 | k :: l' => row_size k + go l' end) ks)
  end.

Definition tree_size (m : list Row) : nat :=
  (fix go (l : list Row) : nat :=
     match l with [] => 0 | k :: l' => row_size k + go l' end) m.

Fixpoint row_flat (r : Row) : list RowData :=
  match r with
  | Node d ks => d :: (fix go (l : list Row) : list RowData :=
                         match l with [] => [] | k :: l' => row_flat k ++ go l' end) ks
  end.

Definition tree_flat (m : list Row) : list RowData :=
  (fix go (l : list Row) : list RowData :=
     match l with [] => [] | k :: l' => row_flat k ++ go l' end) m.

(** The column-0 values of all rows, in display order. *)
Definition tree_values (m : list Row) : list pyobj := c0 <$> tree_flat m.

(** ** Python helpers *)

(** [str(x)] of a scalar. *)
Definition py_str (a : pyval) : string :=
  match a with
  | PNone => "None"
  | PBool true => "True"
  | PBool false => "False"
  | PInt z => pretty z
  | PStr s => s
  end.

(** The value read from a string column. *)
Definition of_col (c : option string) : pyval :=
  match c with Some s => PStr s | None => PNone end.

(** The value written to a string column: a string or [None]; the store
    refuses anything else. *)
Definition to_col (a : pyval) : option (option string) :=
  match a with
  | PNone => Some None
  | PStr s => Some (Some s)
  | _ => None
  end.

(** [s.split(";")[0]]. *)
Fixpoint before_semicolon (s : string) : string :=
  match s with
  | EmptyString => EmptyString
  | String c s' =>
      if Ascii.eqb c ";"%char then EmptyString
      else String c (before_semicolon s')
  end.

(** [l.remove(x)]: drops the first element equal to [x]; [None] stands for
    the [ValueError] raised when there is none. *)
Fixpoint list_remove {A} `{EqDecision A} (x : A) (l : list A) : option (list A) :=
  match l with
  | [] => None
  | y :: l' =>
      if decide (x = y) then Some l'
      else match list_remove x l' with
           | Some l'' => Some (y :: l'')
           | None => None
           end
  end.

(** The names [hasattr] finds on a Python [dict] object: its methods, not
    its keys. *)
Definition dict_attributes : list string :=
  [ "clear"; "copy"; "fromkeys"; "get"; "items"; "keys"; "pop"; "popitem";
    "setdefault"; "update"; "values";
    "__class__"; "__class_getitem__"; "__contains__"; "__delattr__";
    "__delitem__"; "__dir__"; "__doc__"; "__eq__"; "__format__"; "__ge__";
    "__getattribute__"; "__getitem__"; "__getstate__"; "__gt__"; "__hash__";
    "__init__"; "__init_subclass__"; "__ior__"; "__iter__"; "__le__";
    "__len__"; "__lt__"; "__ne__"; "__new__"; "__or__"; "__reduce__";
    "__reduce_ex__"; "__repr__"; "__reversed__"; "__ror__"; "__setattr__";
    "__setitem__"; "__sizeof__"; "__str__"; "__subclasshook__" ].

(** [hasattr(d, att)] for a dictionary [d]. *)
Definition dict_hasattr (att : string) : bool :=
  bool_decide (att ∈ dict_attributes).

(** ** The database layer as seen from the recipe card *)

(** The calls [commit_ingredients] makes to [rg.rd]. *)
Inductive DbCall :=
| ModifyIng (ing : Ingredient) (d : gmap string pyval)
| AddIng (d : gmap string pyval)
| ModifyIngs (ings : list Ingredient) (d : gmap string pyval).

(** ** The ingredient controller *)

Record IngredientController := mkIC {
  imodel : TreeStore;
  ingredient_objects : list Ingredient;
  new_item_count : Z;
  commited_items_converter : list (pyobj * pyobj);
  (** [ingredient_editor_module.current_rec.id] *)
  current_rec_id : pyval;
  (** the calls made to the database so far *)
  rd_log : list DbCall;
  (** the rows handed to [ingTree.expand_row] so far *)
  expand_log : list TreePath;
  (** identity of the next [RecRef] object created *)
  next_oid : nat
}.

Definition with_imodel (c : IngredientController) (m : TreeStore) :=
  mkIC m (ingredient_objects c) (new_item_count c)
    (commited_items_converter c) (current_rec_id c) (rd_log c)
    (expand_log c) (next_oid c).

(** [IngredientController.__init__] followed by an empty [create_imodel]. *)
Definition IngredientController_init (rec_id : pyval) : IngredientController :=
  mkIC [] [] 0 [] rec_id [] [] 0.

(** Lookup and assignment in the dictionary [commited_items_converter],
    whose keys are compared with [==]. *)
Fixpoint conv_get (conv : list (pyobj * pyobj)) (k : pyobj) : option pyobj :=
  match conv with
  | [] => None
  | (k', v) :: conv' => if py_eq k' k then Some v else conv_get conv' k
  end.

Fixpoint conv_set (conv : list (pyobj * pyobj)) (k v : pyobj)
  : list (pyobj * pyobj) :=
  match conv with
  | [] => [(k, v)]
  | (k', v') :: conv' =>
      if py_eq k' k then (k', v) :: conv' else (k', v') :: conv_set conv' k v
  end.

(** The first lines of [get_iter_from_persistent_ref]: a reference that
    was committed is replaced by the object it became. *)
Definition convert_ref (conv : list (pyobj * pyobj)) (ref : pyobj) : pyobj :=
  if hashable ref then
    match conv_get conv ref with
    | Some r => r
    | None => ref
    end
  else ref.

(** A recipe as [RecSelector.ok] reads it. *)
Record Recipe := mkRecipe {
  rec_id : pyval;
  rec_yields : pyval;
  rec_title : pyval
}.

(** ** Sample data

    A small database layer and a few ingredient trees, used to run the
    model on concrete inputs. *)
Module Sample.

(** A database layer: no two distinct values are "row equal", amounts
    print as they are stored, a new row gets the next free id and the
    attributes of the dictionary it was made from. *)
Definition row_equal (a b : pyobj) : bool := false.

Definition get_amount_as_string (i : Ingredient) : option string :=
  match ing_amount i with
  | PStr s => Some s
  | PInt z => Some (pretty z)
  | _ => None
  end.

Definition parse_range (s : string) : pyval * pyval := (PStr s, PNone).

Definition add_ing_result (log : list DbCall) (d : gmap string pyval)
  : Ingredient :=
  mkIngredient (100 + Z.of_nat (length log))
    (default PNone (d !! "amount")) (default PNone (d !! "unit"))
    (default PNone (d !! "item")) (default PNone (d !! "ingkey"))
    (default PNone (d !! "position")) (default PNone (d !! "inggroup"))
    (default PNone (d !! "optional")) (PBool false)
    (default PNone (d !! "refid")).

Definition path_prev (p : TreePath) : option TreePath :=
  match last p with
  | Some (S i) => Some (removelast p ++ [i])
  | _ => None
  end.

Definition move_iter (m : TreeStore) (it sibling parent : option TreeIter)
    (direction : string) : option TreeStore := Some m.

Definition yield_selector_run (r : Recipe) : pyval := PInt 2.

Definition parse_ingredient (line : string) : option (gmap string pyval) :=
  None.

Definition row_expanded (p : TreePath) : bool := false.

(** Rows. *)
Definition leaf (v : pyobj) (amt unit item : string) : Row :=
  Node (mkRowData v (Some amt) (Some unit) (Some item) false) [].

Definition group (name : string) (kids : list Row) : Row :=
  Node (mkRowData (OStr ("GROUP " +:+ name)) (Some name) None None false) kids.

(** Two stored ingredients. *)
Definition flour : Ingredient :=
  mkIngredient 7 (PStr "2") (PStr "cup") (PStr "flour") (PStr "flour")
    (PInt 0) PNone (PBool false) (PBool false) PNone.

Definition sugar : Ingredient :=
  mkIngredient 8 (PStr "1") (PStr "tbsp") (PStr "sugar") (PStr "sugar")
    (PInt 1) PNone (PBool false) (PBool false) PNone.

Definition controller (m : TreeStore) (objs : list Ingredient) (count : Z)
  : IngredientController :=
  mkIC m objs count [] (PInt 1) [] [] 0.

(** One stored ingredient, shown exactly as it is stored. *)
Definition unchanged : IngredientController :=
  controller [leaf (OIng flour) "2" "cup" "flour"] [flour] 0.

(** A group with two new ingredients. *)
Definition grouped : IngredientController :=
  controller
    [group "dough" [leaf (OInt 0) "2" "cup" "flour";
                    leaf (OInt 1) "1" "" "egg"]] [] 2.

(** A group inside a group, followed by a row at the top level. *)
Definition nested : IngredientController :=
  controller
    [group "a" [group "b" [leaf (OInt 0) "1" "" "egg"]];
     leaf (OInt 1) "2" "cup" "milk"] [] 2.

(** A stored ingredient in a group, a new ingredient, a recipe
    reference; [sugar] is tracked but no longer shown. *)
Definition mixed : IngredientController :=
  controller
    [group "dough" [leaf (OIng flour) "3" "cup" "flour";
                    leaf (OInt 0) "1" "" "egg"];
     leaf (ORecRef (RecRef_init 0 (PInt 5) (PStr "icing"))) "1" "" "icing"]
    [flour; sugar] 1.

End Sample.

Section Controller.

(** Functions of the database layer and of the importers that the recipe
    card calls; their code is outside this file, so the development is
    parametric in them. *)

(** [rg.rd.row_equal(v, ref)] *)
Variable row_equal : pyobj -> pyobj -> bool.
(** [rg.rd.get_amount_as_string(ing)] *)
Variable get_amount_as_string : Ingredient -> option string.
(** [parse_range(s)], giving the amount and the range amount *)
Variable parse_range : string -> pyval * pyval.
(** the object [rg.rd.add_ing_and_update_keydic(d)] returns, given the
    calls the database received before *)
Variable add_ing_result : list DbCall -> gmap string pyval -> Ingredient.
(** [te.path_next(path, -1)] *)
Variable path_prev : TreePath -> option TreePath.
(** [te.move_iter(mod, iter, sibling, parent=..., direction=...)] *)
Variable move_iter :
  TreeStore -> option TreeIter -> option TreeIter -> option TreeIter ->
  string -> option TreeStore.

(** *** Persistent references *)

(** [get_persistent_ref_from_iter]: the reference is the value of column 0. *)
Definition get_persistent_ref_from_iter (c : IngredientController)
    (it : TreeIter) : option pyobj :=
  get_value0 (imodel c) it.

Definition get_persistent_ref_from_path (c : IngredientController)
    (p : TreePath) : option pyobj :=
  match get_iter (imodel c) p with
  | Some it => get_persistent_ref_from_iter c it
  | None => None
  end.

(** The test of the search loop: [v == ref or self.rg.rd.row_equal(v, ref)]. *)
Definition ref_matches (v ref : pyobj) : bool :=
  py_eq v ref || row_equal v ref.

(** The iterator the search loop of [get_iter_from_persistent_ref] moves
    to from a row that does not match: the first child, else the next
    sibling, else the next sibling of the parent, else nothing. *)
Definition search_advance (m : TreeStore) (itr : TreeIter) : option TreeIter :=
  match iter_children m itr with
  | Some child => Some child
  | None =>
      match iter_next m itr with
      | Some next => Some next
      | None =>
          match iter_parent m itr with
          | Some parent => iter_next m parent
          | None => None
          end
      end
  end.

(** The [while itr:] loop of [get_iter_from_persistent_ref].  The result
    [None] means that the fuel ran out (or that an iterator was not one
    of the store); [Some r] is the value the method returns. *)
Fixpoint search_loop (fuel : nat) (m : TreeStore) (ref : pyobj)
    (itr : option TreeIter) : option (option TreeIter) :=
  match itr with
  | None => Some None
  | Some it =>
      match fuel with
      | 0 => None
      | S fuel' =>
          match get_value0 m it with
          | Some v =>
              if ref_matches v ref then Some (Some it)
              else search_loop fuel' m ref (search_advance m it)
          | None => None
          end
      end
  end.

Definition get_iter_from_persistent_ref_fuel (fuel : nat)
    (c : IngredientController) (ref : pyobj) : option (option TreeIter) :=
  search_loop fuel (imodel c)
    (convert_ref (commited_items_converter c) ref)
    (get_iter_first (imodel c)).

(** [get_iter_from_persistent_ref], with fuel for one step per row and
    one more for leaving the loop. *)
Definition get_iter_from_persistent_ref (c : IngredientController)
    (ref : pyobj) : option TreeIter :=
  match get_iter_from_persistent_ref_fuel (S (tree_size (imodel c))) c ref with
  | Some r => r
  | None => None
  end.

Definition get_path_from_persistent_ref (c : IngredientController)
    (ref : pyobj) : option TreePath :=
  match get_iter_from_persistent_ref c ref with
  | Some itr => get_path (imodel c) itr
  | None => None
  end.

(** *** Row dictionaries *)

(** [get_extra_ingredient_attributes(ing_obj, ingdict)] *)
Definition get_extra_ingredient_attributes (ing_obj : pyobj)
    (ingdict : gmap string pyval) : gmap string pyval :=
  let from_item :=
    match ingdict !! "item" with
    | Some (PStr s) =>
        if pyval_truthy (PStr s)
        then <["ingkey" := PStr (before_semicolon s)]> ingdict
        else ingdict
    | _ => ingdict
    end in
  match ing_obj with
  | OIng i =>
      if negb (pyval_truthy (ing_ingkey i)) then from_item
      else <["ingkey" := ing_ingkey i]> ingdict
  | _ => from_item
  end.

(** [get_rowdict(iter)] *)
Definition rowdict_of (d : RowData) : gmap string pyval :=
  get_extra_ingredient_attributes (c0 d)
    (<["optional" := PBool (c4 d)]>
       (<["item" := of_col (c3 d)]>
          (<["unit" := of_col (c2 d)]>
             (<["amount" := of_col (c1 d)]> ∅)))).

Definition get_rowdict (c : IngredientController) (it : TreeIter)
  : option (gmap string pyval) :=
  rowdict_of <$> get_data (imodel c) it.

(** [update_ingredient_row(iter, amount, unit, item, optional, **unused)]:
    only the arguments that are not [None] are written. *)
Definition update_row_data (kw : gmap string pyval) (d : RowData)
  : option RowData :=
  d1 ← match kw !! "amount" with
       | Some PNone | None => Some d
       | Some a => Some (set_c1 (Some (py_str a)) d)
       end;
  d2 ← match kw !! "unit" with
       | Some PNone | None => Some d1
       | Some u => v ← to_col u; Some (set_c2 v d1)
       end;
  d3 ← match kw !! "item" with
       | Some PNone | None => Some d2
       | Some i => v ← to_col i; Some (set_c3 v d2)
       end;
  match kw !! "optional" with
  | Some PNone | None => Some d3
  | Some o => Some (set_c4 (pyval_truthy o) d3)
  end.

Definition update_ingredient_row (m : TreeStore) (it : TreeIter)
    (kw : gmap string pyval) : option TreeStore :=
  d ← get_data m it;
  d' ← update_row_data kw d;
  ts_update m it (fun _ => d').

(** *** Creating rows *)

(** [_new_iter_(group_iter, prev_iter, fallback_on_append)] *)
Definition _new_iter_ (m : TreeStore) (group_iter prev_iter : option TreeIter)
    (fallback_on_append : bool) : option (TreeStore * TreeIter) :=
  '(m1, prev1, iter1) ←
    match group_iter, prev_iter with
    | Some g, None =>
        v ← get_value0 m g;
        if negb (isinstance_str v) then Some (m, Some g, None)
        else '(m', it) ← ts_append m (Some g); Some (m', None, Some it)
    | _, _ => Some (m, prev_iter, None)
    end;
  '(m2, iter2) ←
    match prev1 with
    | Some p => '(m', it) ← ts_insert_after m1 p; Some (m', Some it)
    | None => Some (m1, iter1)
    end;
  match iter2 with
  | Some it => Some (m2, it)
  | None => if fallback_on_append then ts_append m2 None
            else Some (ts_prepend m2)
  end.

(** [add_ingredient_from_kwargs(group_iter, prev_iter, fallback_on_append,
    placeholder=..., **ingdict)]; [placeholder] is [ONone] when the caller
    gives none. *)
Definition add_ingredient_from_kwargs (c : IngredientController)
    (group_iter prev_iter : option TreeIter) (fallback_on_append : bool)
    (placeholder : pyobj) (ingdict : gmap string pyval)
  : option (IngredientController * TreeIter) :=
  '(m1, it) ← _new_iter_ (imodel c) group_iter prev_iter fallback_on_append;
  let '(v, count, oid) :=
    if pyval_truthy (default PNone (ingdict !! "refid")) then
      (ORecRef (RecRef_init (next_oid c) (default PNone (ingdict !! "refid"))
                  (default (PStr "") (ingdict !! "item"))),
       new_item_count c, S (next_oid c))
    else
      match placeholder with
      | ONone => (OInt (new_item_count c), (new_item_count c + 1)%Z, next_oid c)
      | _ => (placeholder, new_item_count c, next_oid c)
      end in
  m2 ← ts_update m1 it (set_c0 v);
  m3 ← update_ingredient_row m2 it ingdict;
  Some (mkIC m3 (ingredient_objects c) count (commited_items_converter c)
          (current_rec_id c) (rd_log c) (expand_log c) oid, it).

(** [add_new_ingredient] *)
Definition add_new_ingredient := add_ingredient_from_kwargs.

(** [add_ingredient(ing, prev_iter, group_iter, fallback_on_append,
    is_undo=...)].  Reading [ing.unit] fails unless [ing] is an ingredient
    object. *)
Definition add_ingredient (c : IngredientController) (ing : pyobj)
    (prev_iter group_iter : option TreeIter) (fallback_on_append is_undo : bool)
  : option (IngredientController * TreeIter) :=
  match ing with
  | OIng i =>
      let objs := if negb is_undo then ingredient_objects c ++ [i]
                  else ingredient_objects c in
      '(m1, it) ← _new_iter_ (imodel c) group_iter prev_iter fallback_on_append;
      let amt := get_amount_as_string i in
      unit ← to_col (ing_unit i);
      item ← to_col (ing_item i);
      let opt := if pyval_truthy (ing_optional i) then true else false in
      m2 ← ts_update m1 it
             (fun d => set_c4 opt (set_c3 item (set_c2 unit
                         (set_c1 amt (set_c0 (OIng i) d)))));
      Some (mkIC m2 objs (new_item_count c) (commited_items_converter c)
              (current_rec_id c) (rd_log c) (expand_log c) (next_oid c), it)
  | _ => None
  end.

(** The loop [while self.imodel.iter_parent(prev_iter): prev_iter = ...]
    of [add_group]; a path of [n] indices has fewer than [n] ancestors. *)
Fixpoint climb_to_top (fuel : nat) (m : TreeStore) (it : TreeIter) : TreeIter :=
  match fuel with
  | 0 => it
  | S fuel' =>
      match iter_parent m it with
      | Some parent => climb_to_top fuel' m parent
      | None => it
      end
  end.

(** The insertion step of [add_group]: where the new group row goes. *)
Definition add_group_insert (m : TreeStore) (prev_iter : option TreeIter)
    (fallback_on_append : bool) : option (TreeStore * TreeIter) :=
  match prev_iter with
  | None =>
      if fallback_on_append then ts_append m None else Some (ts_prepend m)
  | Some p =>
      (* ALLOW NO NESTING! *)
      ts_insert_after m (climb_to_top (length p) m p)
  end.

(** [add_group(name, prev_iter, children_iters, fallback_on_append)] *)
Definition add_group (c : IngredientController) (name : pyval)
    (prev_iter : option TreeIter) (children_iters : list (option TreeIter))
    (fallback_on_append : bool) : option (IngredientController * TreeIter) :=
  '(m1, groupiter) ← add_group_insert (imodel c) prev_iter fallback_on_append;
  m2 ← ts_update m1 groupiter (set_c0 (OStr ("GROUP " +:+ py_str name)));
  col ← to_col name;
  m3 ← ts_update m2 groupiter (set_c1 col);
  m4 ← foldl (fun acc ch =>
               m ← acc; move_iter m ch None (Some groupiter) "after")
         (Some m3) (reverse children_iters);
  Some (with_imodel c m4, groupiter).

(** *** Deleting rows and bringing them back *)

(** What [delete_iters] records of a child of a deleted row. *)
Record ChildInfo := mkChildInfo {
  ci_rowdic : gmap string pyval;
  ci_prev_ref : pyobj;
  ci_ing_obj : pyobj
}.

(** What [delete_iters] records of a deleted row. *)
Record UndoInfo := mkUndoInfo {
  ui_rowdic : gmap string pyval;
  ui_prev_ref : pyobj;
  ui_ing_obj : pyobj;
  ui_children : list ChildInfo;
  ui_expanded : bool
}.

(** [_get_prev_path_(path)]: the previous sibling, for a first child the
    parent, for the first row nothing. *)
Definition _get_prev_path_ (path : TreePath) : option TreePath :=
  match last path with
  | Some 0 =>
      if bool_decide (length path = 1) then None
      else Some (removelast path)
  | _ => path_prev path
  end.

(** [_get_undo_info_for_iter_(iter)] *)
Definition _get_undo_info_for_iter_ (c : IngredientController) (it : TreeIter)
  : option ChildInfo :=
  deleted_dic ← get_rowdict c it;
  path ← get_path (imodel c) it;
  prev_ref ←
    match _get_prev_path_ path with
    | Some ((_ :: _) as prev_path) => get_persistent_ref_from_path c prev_path
    | _ => Some ONone
    end;
  ing_obj ← get_value0 (imodel c) it;
  Some (mkChildInfo deleted_dic prev_ref ing_obj).

(** The part of [delete_iters] before the [UndoableObject] is built: the
    references to delete and what is needed to bring the rows back.  A
    row whose parent is deleted with it is skipped.  [row_expanded] is
    [ingTree.row_expanded]. *)
Definition delete_iters_info (c : IngredientController)
    (row_expanded : TreePath -> bool) (iters : list TreeIter)
  : option (list pyobj * list UndoInfo) :=
  paths ← mapM (get_path (imodel c)) iters;
  foldl (fun acc itr =>
           '(refs, undo_info) ← acc;
           orig_ref ← get_persistent_ref_from_iter c itr;
           let parent := iter_parent (imodel c) itr in
           let parent_path := parent ≫= get_path (imodel c) in
           if match parent_path with
              | Some pp => bool_decide (pp ∈ paths)
              | None => false
              end
           then Some (refs, undo_info)
           else
             info ← _get_undo_info_for_iter_ c itr;
             r ← get_row (imodel c) itr;
             let expanded :=
               match row_kids r with
               | [] => false
               | _ => row_expanded itr
               end in
             children ← mapM (fun j => _get_undo_info_for_iter_ c (itr ++ [j]))
                          (seq 0 (length (row_kids r)));
             Some (refs ++ [orig_ref],
                   undo_info ++ [mkUndoInfo (ci_rowdic info) (ci_prev_ref info)
                                   (ci_ing_obj info) children expanded]))
        (Some ([], [])) iters.

(** [do_delete_iters(iters)]: a reference that resolves to no row is
    reported and passed over. *)
Definition do_delete_iters (c : IngredientController) (refs : list pyobj)
  : option IngredientController :=
  foldl (fun acc ref =>
           c ← acc;
           match get_iter_from_persistent_ref c ref with
           | None => Some c
           | Some i => m ← ts_remove (imodel c) i; Some (with_imodel c m)
           end)
        (Some c) refs.

(** The loop over the recorded children in [do_undelete_iters]; [itr] is
    the loop's variable of that name, [is_first] its flag [first]. *)
Definition undelete_child (acc : option (IngredientController * TreeIter * bool))
    (ch : ChildInfo) : option (IngredientController * TreeIter * bool) :=
  '(c, itr, is_first) ← acc;
  let pi0 := get_iter_from_persistent_ref c (ci_prev_ref ch) in
  let gi : option TreeIter := if (is_first : bool) then Some itr else None in
  let pi : option TreeIter := if (is_first : bool) then None else pi0 in
  let io := ci_ing_obj ch in
  if py_truthy io
     && negb (isinstance_str io || isinstance_int io || isinstance_RecRef io)
  then
    '(c1, itr') ← add_ingredient c io pi gi false true;
    m ← update_ingredient_row (imodel c1) itr' (ci_rowdic ch);
    Some (with_imodel c1 m, itr', false)
  else
    '(c1, itr') ← add_ingredient_from_kwargs c gi pi false ONone (ci_rowdic ch);
    m ← ts_update (imodel c1) itr' (set_c0 io);
    Some (with_imodel c1 m, itr', false).

(** One round of the loop of [do_undelete_iters]. *)
Definition undelete_one (c : IngredientController) (u : UndoInfo)
  : option IngredientController :=
  let prev_iter := get_iter_from_persistent_ref c (ui_prev_ref u) in
  let ing_obj := ui_ing_obj u in
  '(c1, itr) ←
    (if py_truthy ing_obj && isinstance_str ing_obj then
       amount ← ui_rowdic u !! "amount";
       add_group c amount prev_iter [] false
     else if isinstance_int ing_obj || negb (py_truthy ing_obj) then
       add_ingredient_from_kwargs c None prev_iter false ing_obj (ui_rowdic u)
     else
       '(c1, it) ← add_ingredient c ing_obj prev_iter None false true;
       m ← update_ingredient_row (imodel c1) it (ui_rowdic u);
       Some (with_imodel c1 m, it));
  '(c2, itr2, _) ← foldl undelete_child (Some (c1, itr, true)) (ui_children u);
  if ui_expanded u then
    path ← get_path (imodel c2) itr2;
    Some (mkIC (imodel c2) (ingredient_objects c2) (new_item_count c2)
            (commited_items_converter c2) (current_rec_id c2) (rd_log c2)
            (expand_log c2 ++ [path]) (next_oid c2))
  else Some c2.

(** [do_undelete_iters(rowdicts_and_iters)] *)
Definition do_undelete_iters (c : IngredientController) (infos : list UndoInfo)
  : option IngredientController :=
  foldl (fun acc u => c ← acc; undelete_one c u) (Some c) infos.

(** *** Committing the tree to the database *)

(** What [commit_ingredients] changes while it walks the tree: its local
    list [deleted], [ingredient_objects], the converter and the database. *)
Record CommitState := mkCS {
  cs_deleted : list Ingredient;
  cs_objects : list Ingredient;
  cs_conv : list (pyobj * pyobj);
  cs_log : list DbCall
}.

(** The attributes compared with the stored object. *)
Definition compared_attributes : list string :=
  ["amount"; "unit"; "item"; "ingkey"; "position"; "inggroup"; "optional"].

(** The loop [for att in [...]: if hasattr(d, att): if getattr(ing, att) ==
    d[att]: del d[att]] of [commit_iter]. *)
Definition drop_unchanged (i : Ingredient) (d : gmap string pyval)
  : option (gmap string pyval) :=
  foldl (fun acc att =>
           dd ← acc;
           if dict_hasattr att then
             a ← ing_getattr i att;
             b ← dd !! att;
             Some (if pyval_eq a b then delete att dd else dd)
           else Some dd)
        (Some d) compared_attributes.

(** The dictionary [commit_iter] builds for an ingredient row, up to the
    point where old and new ingredients part.  (A [shop_cat] key, which
    only a plugin can add to the row dictionary, is taken out.) *)
Definition commit_dict (d : RowData) (pos : Z) (group : pyval)
  : gmap string pyval :=
  let d0 := rowdict_of d in
  let d1 :=
    match d0 !! "amount" with
    | Some (PStr s) =>
        if pyval_truthy (PStr s) then
          let '(amt, rangeamount) := parse_range s in
          let dd := <["amount" := amt]> d0 in
          if pyval_truthy rangeamount
          then <["rangeamount" := rangeamount]> dd else dd
        else <["amount" := PNone]> d0
    | _ => <["amount" := PNone]> d0
    end in
  let d2 := delete "shop_cat" d1 in
  let d3 := <["inggroup" := group]> (<["position" := PInt pos]> d2) in
  match c0 d with
  | ORecRef r => <["refid" := rr_refid r]> d3
  | _ => d3
  end.

(** The ingredient branch of [commit_iter] for the row with columns [d]:
    the new columns and state. *)
Definition commit_row (rec_id : pyval) (d : RowData) (pos : Z) (group : pyval)
    (s : CommitState) : option (RowData * CommitState) :=
  let dd := commit_dict d pos group in
  match c0 d with
  | OInt _ | ORecRef _ =>
      (* a new item, or a recipe reference *)
      let dd := <["recipe_id" := rec_id]> dd in
      let obj := add_ing_result (cs_log s) dd in
      let conv := conv_set (cs_conv s) (c0 d) (OIng obj) in
      v ← conv_get conv (c0 d);
      match v with
      | OIng o =>
          Some (set_c0 v d,
                mkCS (cs_deleted s) (cs_objects s ++ [o]) conv
                  (cs_log s ++ [AddIng dd]))
      | _ => None
      end
  | OIng ing =>
      (* a real, old ingredient *)
      dd ← drop_unchanged ing dd;
      let '(deleted, dd) :=
        if bool_decide (ing ∈ cs_deleted s)
        then (default (cs_deleted s) (list_remove ing (cs_deleted s)), dd)
        else (cs_deleted s, <["deleted" := PBool false]> dd) in
      let dd := if pyval_truthy (ing_deleted ing)
                then <["deleted" := PBool false]> dd else dd in
      let log := if bool_decide (dd ≠ ∅)
                 then cs_log s ++ [ModifyIng ing dd] else cs_log s in
      Some (d, mkCS deleted (cs_objects s) (cs_conv s) log)
  | _ => None
  end.

(** [commit_iter(iter, pos, group)] on the row [r]: a group hands its name
    to its children and takes no position; an ingredient is committed and
    takes one.  The two [while] loops over siblings are the recursion over
    the list of rows. *)
Fixpoint commit_iter (rec_id : pyval) (r : Row) (pos : Z) (group : pyval)
    (s : CommitState) {struct r} : option (Row * Z * CommitState) :=
  match r with
  | Node d ks =>
      if isinstance_str (c0 d) then
        let group := of_col (c1 d) in
        match
          (fix loop (l : list Row) (pos : Z) (s : CommitState)
             : option (list Row * Z * CommitState) :=
             match l with
             | [] => Some ([], pos, s)
             | k :: l' =>
                 match commit_iter rec_id k pos group s with
                 | Some (k', pos', s') =>
                     match loop l' pos' s' with
                     | Some (l'', pos'', s'') => Some (k' :: l'', pos'', s'')
                     | None => None
                     end
                 | None => None
                 end
             end) ks pos s
        with
        | Some (ks', pos', s') => Some (Node d ks', pos', s')
        | None => None
        end
      else
        match commit_row rec_id d pos group s with
        | Some (d', s') => Some (Node d' ks, (pos + 1)%Z, s')
        | None => None
        end
  end.

(** The loop over a list of sibling rows ([while iter: ...; iter =
    iter_next(iter)]). *)
Fixpoint commit_rows (rec_id : pyval) (l : list Row) (pos : Z) (group : pyval)
    (s : CommitState) : option (list Row * Z * CommitState) :=
  match l with
  | [] => Some ([], pos, s)
  | k :: l' =>
      match commit_iter rec_id k pos group s with
      | Some (k', pos', s') =>
          match commit_rows rec_id l' pos' group s' with
          | Some (l'', pos'', s'') => Some (k' :: l'', pos'', s'')
          | None => None
          end
      | None => None
      end
  end.

(** The last loop of [commit_ingredients]: [for i in deleted:
    self.ingredient_objects.remove(i)]. *)
Definition remove_all (deleted objs : list Ingredient) : option (list Ingredient) :=
  foldl (fun acc i => l ← acc; list_remove i l) (Some objs) deleted.

(** [commit_ingredients()] *)
Definition commit_ingredients (c : IngredientController)
  : option IngredientController :=
  let deleted := ingredient_objects c in
  '(m, n, s) ← commit_rows (current_rec_id c) (imodel c) 0 PNone
                 (mkCS deleted (ingredient_objects c)
                    (commited_items_converter c) (rd_log c));
  objs ← remove_all (cs_deleted s) (cs_objects s);
  Some (mkIC m objs (new_item_count c) (cs_conv s) (current_rec_id c)
          (cs_log s ++ [ModifyIngs (cs_deleted s) {["deleted" := PBool true]}])
          (expand_log c) (next_oid c)).

(** ** The recipe selector *)

(** [YieldSelector(rec, window).run()]: the amount the user chooses. *)
Variable yield_selector_run : Recipe -> pyval.

(** One round of the loop of [RecSelector.ok]: the controller and the
    number of messages shown so far. *)
Definition ok_step (pre_iter : option TreeIter)
    (acc : option (IngredientController * nat)) (rec : Recipe)
  : option (IngredientController * nat) :=
  '(c, shown) ← acc;
  if pyval_eq (rec_id rec) (current_rec_id c) then
    (* Recipe cannot call itself as an ingredient! *)
    Some (c, S shown)
  else
    let amount := if pyval_truthy (rec_yields rec)
                  then yield_selector_run rec else PInt 1 in
    let ingdic : gmap string pyval :=
      <["refid" := rec_id rec]>
        (<["item" := rec_title rec]>
           (<["amount" := PStr (py_str amount)]> ∅)) in
    '(c', _) ← add_ingredient_from_kwargs c pre_iter None true ONone ingdic;
    Some (c', shown).

(** [RecSelector.ok()], for the recipes selected in the index and the row
    [get_selected_ing()] gives. *)
Definition RecSelector_ok (c : IngredientController)
    (pre_iter : option TreeIter) (selected : list Recipe)
  : option (IngredientController * nat) :=
  foldl (ok_step pre_iter) (Some (c, 0)) selected.

(** ** The image box *)

(** Images and byte strings are those of the imaging library. *)
Variable Image : Type.
Variable Bytes : Type.
(** [iu.image_to_bytes], [iu.bytes_to_image], and [image.copy()] followed
    by [thumbnail((40, 40))] *)
Variable image_to_bytes : option Image -> Bytes.
Variable bytes_to_image : Bytes -> Image.
Variable make_thumbnail : Image -> Image.

Record ImageBox := mkImageBox {
  image : option Image;
  thumbnail : option Image;
  edited : bool;
  (** whether the widgets [imageW], [delW], [addW] are shown *)
  imageW_shown : bool;
  delW_shown : bool;
  addW_shown : bool
}.

(** [ImageBox.__init__] *)
Definition ImageBox_init : ImageBox :=
  mkImageBox None None false false false false.

(** [ImageBox.commit()]: the box after the call and the pair returned. *)
Definition ImageBox_commit (b : ImageBox)
  : ImageBox * (option Bytes * option Bytes) :=
  match image b with
  | Some _ =>
      (mkImageBox (image b) (thumbnail b) (edited b) true
         (delW_shown b) (addW_shown b),
       (Some (image_to_bytes (image b)), Some (image_to_bytes (thumbnail b))))
  | None =>
      (mkImageBox (image b) (thumbnail b) (edited b) false
         (delW_shown b) (addW_shown b),
       (None, None))
  end.

(** [ImageBox.set_from_bytes(bytes_)] *)
Definition ImageBox_set_from_bytes (b : ImageBox) (bytes_ : Bytes) : ImageBox :=
  let img := bytes_to_image bytes_ in
  mkImageBox (Some img) (Some (make_thumbnail img)) true true true false.

(** [ImageBox.hide()] and [ImageBox.remove_image()] (whose [draw_image]
    finds no image and hides the widget). *)
Definition ImageBox_hide (b : ImageBox) : ImageBox :=
  mkImageBox (image b) (thumbnail b) (edited b) false false true.

Definition ImageBox_remove_image (b : ImageBox) : ImageBox :=
  let b' := ImageBox_hide
              (mkImageBox None (thumbnail b) (edited b) (imageW_shown b)
                 (delW_shown b) (addW_shown b)) in
  mkImageBox (image b') (thumbnail b') true (imageW_shown b')
    (delW_shown b') (addW_shown b').

(** ** Undoable editing *)

(** [rg.rd.parse_ingredient(line, conv=..., get_key=False)],
    [rg.rd.format_amount_string_from_amount((amount, rangeamount))] and
    [convert.float_to_frac(amount)] *)
Variable parse_ingredient : string -> option (gmap string pyval).
Variable format_amount_string_from_amount : pyval -> pyval -> pyval.
Variable float_to_frac : pyval -> pyval.

(** What [add_with_undo] is asked to run. *)
Inductive Method :=
| AddIngredientFromLine (line : string) (prev_iter group_iter : option TreeIter)
| PasteIngredients (lines : list string).

(** The closures handed to [Undo.UndoableObject], with the values they
    capture.  [uts] names the [UndoableTreeStuff] object that the two
    closures of [add_with_undo] share. *)
Inductive Action :=
| DoDeleteIters (refs : list pyobj)
| DoUndeleteIters (undo_info : list UndoInfo)
| IngUpMover (refs : list pyobj)
| IngDownMover (refs : list pyobj)
| DoAddGroup (group_name : pyval) (selected_iter_refs : list pyobj)
    (prev_iter_ref : pyobj)
| DoUnaddGroup (group_name : pyval) (undo_info : list UndoInfo)
| DoIt (uts : nat) (method : Method)
| UndoRecordedAdditions (uts : nat).

(** The fields of an [Undo.UndoableObject] that the recipe card sets;
    [uo_own_undo] tells the subclass
    [UndoableObjectWithInverseThatHandlesItsOwnUndo]. *)
Record UndoableObject := mkUndoable {
  uo_action : Action;
  uo_inverse_action : Action;
  uo_is_undo : bool;
  uo_own_undo : bool
}.

(** The ingredient editor module: its controller, its undo history, and
    the [added] lists of the [UndoableTreeStuff] objects made so far. *)
Record IngredientEditorModule := mkEM {
  ingController : IngredientController;
  history : list UndoableObject;
  uts_added : list (list pyobj)
}.

Definition with_controller (em : IngredientEditorModule)
    (c : IngredientController) : IngredientEditorModule :=
  mkEM c (history em) (uts_added em).

(** The dictionary [add_ingredient_from_line] passes on for a line. *)
Definition line_dict (line : string) : gmap string pyval :=
  match parse_ingredient line with
  | Some d =>
      if bool_decide (d ≠ ∅) then
        match d !! "rangeamount", d !! "amount" with
        | Some ra, amt =>
            delete "rangeamount"
              (<["amount" :=
                   format_amount_string_from_amount (default PNone amt) ra]> d)
        | None, Some amt => <["amount" := float_to_frac amt]> d
        | None, None => d
        end
      else <["unit" := PNone]> (<["amount" := PNone]> (<["item" := PStr line]> ∅))
  | None => <["unit" := PNone]> (<["amount" := PNone]> (<["item" := PStr line]> ∅))
  end.

(** [add_ingredient_from_line(line, group_iter, prev_iter)], as far as
    the model goes (selection and scrolling belong to the view). *)
Definition add_ingredient_from_line (c : IngredientController) (line : string)
    (group_iter prev_iter : option TreeIter)
  : option (IngredientController * TreeIter) :=
  add_new_ingredient c group_iter prev_iter true ONone (line_dict line).

(** Running a method between [start_recording_additions] and
    [stop_recording_additions]: the controller reached and the references
    of the rows inserted. *)
Definition run_method (c : IngredientController) (method : Method)
  : option (IngredientController * list pyobj) :=
  match method with
  | AddIngredientFromLine line prev_iter group_iter =>
      '(c', itr) ← add_ingredient_from_line c line group_iter prev_iter;
      ref ← get_persistent_ref_from_iter c' itr;
      Some (c', [ref])
  | PasteIngredients lines =>
      foldl (fun acc line =>
               '(cc, added) ← acc;
               '(c', itr) ← add_ingredient_from_line cc line None None;
               ref ← get_persistent_ref_from_iter c' itr;
               Some (c', added ++ [ref]))
            (Some (c, [])) lines
  end.

(** [ingUpMover(paths)] and [ingDownMover(paths)] *)
Definition ingUpMover (m : TreeStore) (paths : list (option TreePath))
  : option TreeStore :=
  foldl (fun acc p =>
           ts ← acc;
           path ← p;
           itera ← get_iter ts path;
           prev ← path_prev path;
           prev_iter ← get_iter ts prev;
           move_iter ts (Some itera) (Some prev_iter) None "before")
        (Some m) (reverse paths).

Definition ingDownMover (m : TreeStore) (paths : list (option TreePath))
  : option TreeStore :=
  foldl (fun acc p =>
           ts ← acc;
           path ← p;
           itera ← get_iter ts path;
           move_iter ts (Some itera) (iter_next ts itera) None "after")
        (Some m) (reverse paths).

(** [row_expanded] is the view's [ingTree.row_expanded]. *)
Variable row_expanded : TreePath -> bool.

(** Calling one of the closures. *)
Definition run_action (a : Action) (em : IngredientEditorModule)
  : option IngredientEditorModule :=
  let c := ingController em in
  match a with
  | DoDeleteIters refs => with_controller em <$> do_delete_iters c refs
  | DoUndeleteIters undo_info =>
      with_controller em <$> do_undelete_iters c undo_info
  | IngUpMover refs =>
      m ← ingUpMover (imodel c) (get_path_from_persistent_ref c <$> refs);
      Some (with_controller em (with_imodel c m))
  | IngDownMover refs =>
      m ← ingDownMover (imodel c) (get_path_from_persistent_ref c <$> refs);
      Some (with_controller em (with_imodel c m))
  | DoAddGroup group_name selected_iter_refs prev_iter_ref =>
      '(c1, itr) ←
        add_group c group_name
          (if py_truthy prev_iter_ref
           then get_iter_from_persistent_ref c prev_iter_ref else None)
          (get_iter_from_persistent_ref c <$> selected_iter_refs) true;
      path ← get_path (imodel c1) itr;
      Some (with_controller em
              (mkIC (imodel c1) (ingredient_objects c1) (new_item_count c1)
                 (commited_items_converter c1) (current_rec_id c1) (rd_log c1)
                 (expand_log c1 ++ [path]) (next_oid c1)))
  | DoUnaddGroup group_name undo_info =>
      let gi := OStr ("GROUP " +:+ py_str group_name) in
      it ← get_iter_from_persistent_ref c gi;
      m ← ts_remove (imodel c) it;
      with_controller em <$> do_undelete_iters (with_imodel c m) undo_info
  | DoIt uts method =>
      '(c1, added) ← run_method c method;
      Some (mkEM c1 (history em) (<[uts := added]> (uts_added em)))
  | UndoRecordedAdditions uts =>
      (* delete_iters of the recorded rows, with is_undo=True *)
      added ← uts_added em !! uts;
      iters ← mapM (get_iter_from_persistent_ref c) added;
      '(refs, undo_info) ← delete_iters_info c row_expanded iters;
      c1 ← do_delete_iters c refs;
      Some (mkEM c1
              (history em ++
                 [mkUndoable (DoDeleteIters refs) (DoUndeleteIters undo_info)
                    true false])
              (uts_added em))
  end.

(** Modelled from the spec: [Undo.UndoableObject.perform], whose module is
    not among the sources.  The spec has every operation "paired with an
    inverse action for an undo/redo stack": performing an object runs its
    action and puts the object, with its inverse, on the history it was
    built for. *)
Definition perform (u : UndoableObject) (em : IngredientEditorModule)
  : option IngredientEditorModule :=
  em' ← run_action (uo_action u) em;
  Some (mkEM (ingController em') (history em' ++ [u]) (uts_added em')).

(** [IngredientController.delete_iters] of the given iterators *)
Definition delete_iters (em : IngredientEditorModule) (iters : list TreeIter)
    (is_undo : bool) : option IngredientEditorModule :=
  '(refs, undo_info) ←
    delete_iters_info (ingController em) row_expanded iters;
  perform (mkUndoable (DoDeleteIters refs) (DoUndeleteIters undo_info)
             is_undo false) em.

(** [add_with_undo(editor_module, method)] *)
Definition add_with_undo (em : IngredientEditorModule) (method : Method)
  : option IngredientEditorModule :=
  let uts := length (uts_added em) in
  let em0 := mkEM (ingController em) (history em) (uts_added em ++ [[]]) in
  perform (mkUndoable (DoIt uts method) (UndoRecordedAdditions uts) false true)
    em0.

(** [IngredientTreeUI.get_selected_refs()], for the selected paths. *)
Definition get_selected_refs (c : IngredientController)
    (selected : list TreePath) : option (list pyobj) :=
  mapM (get_persistent_ref_from_path c) selected.

(** [ingUpCB] and [ingDownCB] *)
Definition ingUpCB (em : IngredientEditorModule) (selected : list TreePath)
  : option IngredientEditorModule :=
  refs ← get_selected_refs (ingController em) selected;
  perform (mkUndoable (IngUpMover refs) (IngDownMover refs) false false) em.

Definition ingDownCB (em : IngredientEditorModule) (selected : list TreePath)
  : option IngredientEditorModule :=
  refs ← get_selected_refs (ingController em) selected;
  perform (mkUndoable (IngDownMover refs) (IngUpMover refs) false false) em.

(** [getSelectedIters()] and [getSelectedIter()] *)
Definition getSelectedIters (c : IngredientController)
    (selected : list TreePath) : option (option (list TreeIter)) :=
  match imodel c with
  | [] => Some None
  | _ => its ← mapM (get_iter (imodel c)) selected; Some (Some its)
  end.

Definition getSelectedIter (c : IngredientController)
    (selected : list TreePath) : option TreeIter :=
  match imodel c with
  | [] => None
  | _ => last selected ≫= get_iter (imodel c)
  end.

(** [ingNewGroupCB], for the name the user enters. *)
Definition ingNewGroupCB (em : IngredientEditorModule) (group_name : pyval)
    (selected : list TreePath) : option IngredientEditorModule :=
  let c := ingController em in
  sel ← getSelectedIters c selected;
  let selected_iters := default [] sel in
  undo_info ←
    mapM (fun i =>
            info ← _get_undo_info_for_iter_ c i;
            Some (mkUndoInfo (ci_rowdic info) (ci_prev_ref info)
                    (ci_ing_obj info) [] false))
         selected_iters;
  selected_iter_refs ← mapM (get_persistent_ref_from_iter c) selected_iters;
  prev_iter_ref ←
    match getSelectedIter c selected with
    | Some pitr => get_persistent_ref_from_iter c pitr
    | None => Some ONone
    end;
  perform (mkUndoable (DoAddGroup group_name selected_iter_refs prev_iter_ref)
             (DoUnaddGroup group_name undo_info) false false) em.

(** [get_previous_iter_and_group_iter()] and [quick_add] *)
Definition get_previous_iter_and_group_iter (c : IngredientController)
    (selected : list TreePath) : option (option TreeIter * option TreeIter) :=
  match getSelectedIter c selected with
  | None => Some (None, None)
  | Some selected_iter =>
      v ← get_value0 (imodel c) selected_iter;
      if isinstance_str v then Some (None, Some selected_iter)
      else Some (Some selected_iter, None)
  end.

Definition quick_add (em : IngredientEditorModule) (txt : string)
    (selected : list TreePath) : option IngredientEditorModule :=
  '(prev_iter, group_iter) ←
    get_previous_iter_and_group_iter (ingController em) selected;
  add_with_undo em (AddIngredientFromLine txt prev_iter group_iter).

(** [IngredientEditorModule.delete_cb] *)
Definition delete_cb (em : IngredientEditorModule) (rows : list TreePath)
  : option IngredientEditorModule :=
  iters ← mapM (get_iter (imodel (ingController em))) (reverse rows);
  delete_iters em iters false.

(** ** The search loop, row by row

    What the loop of [get_iter_from_persistent_ref] does on a list of
    sibling rows, read off its three moves: it leaves the list with a
    row found, by climbing to the next sibling of the list's parent
    ([Climb]), or by ending the search ([Stop]). *)
Inductive outcome :=
| Found (p : TreeIter)
| Climb
| Stop.

(** After a row: found, on to its next sibling (and if there is none, up
    to the parent's), on to its next sibling (and if there is none, the
    end), or the end. *)
Inductive row_outcome :=
| RFound (p : TreeIter)
| RNext
| RNextOrStop
| RStop.

Fixpoint walk_row (ref : pyobj) (p : TreePath) (r : Row) : row_outcome :=
  match r with
  | Node d ks =>
      if ref_matches (c0 d) ref then RFound p
      else
        match ks with
        | [] => RNext
        | _ =>
            match
              (fix walk_kids (i : nat) (l : list Row) : outcome :=
                 match l with
                 | [] => Climb
                 | k :: l' =>
                     match walk_row ref (p ++ [i]) k with
                     | RFound q => Found q
                     | RStop => Stop
                     | RNext =>
                         match l' with [] => Climb | _ => walk_kids (S i) l' end
                     | RNextOrStop =>
                         match l' with [] => Stop | _ => walk_kids (S i) l' end
                     end
                 end) 0 ks
            with
            | Found q => RFound q
            | Climb => RNextOrStop
            | Stop => RStop
            end
        end
  end.

Fixpoint walk_rows (ref : pyobj) (pfx : TreePath) (i : nat) (l : list Row)
  : outcome :=
  match l with
  | [] => Climb
  | k :: l' =>
      match walk_row ref (pfx ++ [i]) k with
      | RFound q => Found q
      | RStop => Stop
      | RNext => match l' with [] => Climb | _ => walk_rows ref pfx (S i) l' end
      | RNextOrStop =>
          match l' with [] => Stop | _ => walk_rows ref pfx (S i) l' end
      end
  end.

(** No row lies deeper than the children of a top-level row. *)
Definition two_level (m : TreeStore) : Prop :=
  Forall (fun r => Forall (fun k => row_kids k = []) (row_kids r)) m.

(** The row a creating call returns is a new, empty row; the other rows
    are those of before. *)
Definition creates_row (m m1 : list Row) (it : list nat) : Prop :=
  get_row m1 it = Some empty_row /\
  tree_flat m1 ≡ₚ row_data empty_row :: tree_flat m.

(** A row that refers to the recipe with id [cur]. *)
Definition is_self_reference (cur : pyval) (v : pyobj) : bool :=
  match v with
  | ORecRef r => pyval_eq (rr_refid r) cur
  | _ => false
  end.

(** ** The commit pass, row by row *)

(** The ingredient rows [commit_iter] reaches, in the order it reaches
    them, each with the group name it is committed under: the walk goes
    below group rows only. *)
Fixpoint visited_row (group : pyval) (r : Row) : list (RowData * pyval) :=
  match r with
  | Node d ks =>
      if isinstance_str (c0 d) then
        (fix go (l : list Row) : list (RowData * pyval) :=
           match l with
           | [] => []
           | k :: l' => visited_row (of_col (c1 d)) k ++ go l'
           end) ks
      else [(d, group)]
  end.

Fixpoint visited_rows (group : pyval) (l : list Row)
  : list (RowData * pyval) :=
  match l with
  | [] => []
  | k :: l' => visited_row group k ++ visited_rows group l'
  end.

(** The commit of a list of ingredient rows, one after the other. *)
Fixpoint commit_fold (rec_id : pyval) (xs : list (RowData * pyval)) (pos : Z)
    (s : CommitState) : option (Z * CommitState) :=
  match xs with
  | [] => Some (pos, s)
  | (d, g) :: xs' =>
      match commit_row rec_id d pos g s with
      | Some (_, s') => commit_fold rec_id xs' (pos + 1) s'
      | None => None
      end
  end.

(** The shape the editing operations keep: only group rows have
    children, and every row holds an object in column 0. *)
Fixpoint well_formed_row (r : Row) : bool :=
  match r with
  | Node d ks =>
      match c0 d with
      | ONone => false
      | OStr _ => true
      | _ => match ks with [] => true | _ => false end
      end
      && (fix go (l : list Row) : bool :=
            match l with
            | [] => true
            | k :: l' => well_formed_row k && go l'
            end) ks
  end.

Fixpoint well_formed (l : list Row) : bool :=
  match l with
  | [] => true
  | k :: l' => well_formed_row k && well_formed l'
  end.

(** The ingredient rows of a store in display order: all rows, depth
    first and top to bottom, without the group headers. *)
Definition ingredient_rows (m : list Row) : list RowData :=
  filter (fun d => isinstance_str (c0 d) = false) (tree_flat m).

(** The dictionary of a database call, and the row it is made for. *)
Definition call_dict (call : DbCall) : gmap string pyval :=
  match call with
  | ModifyIng _ d | AddIng d | ModifyIngs _ d => d
  end.

Definition call_for (d : RowData) (call : DbCall) : Prop :=
  match call with
  | ModifyIng ing _ => c0 d = OIng ing
  | AddIng _ => isinstance_int (c0 d) || isinstance_RecRef (c0 d) = true
  | ModifyIngs _ _ => False
  end.

(** Column-0 values of ingredient rows: a placeholder, a recipe
    reference or an ingredient object. *)
Definition is_ingredient (v : pyobj) : bool :=
  match v with
  | OInt _ | ORecRef _ | OIng _ => true
  | _ => false
  end.

(** * Properties *)

(** ** Paths and rows *)

Lemma tree_size_cons r l : tree_size (r :: l) = row_size r + tree_size l.
Proof. reflexivity. Qed.

Lemma row_size_node d ks : row_size (Node d ks) = S (tree_size ks).
Proof. reflexivity. Qed.

Lemma path_succ_snoc (pfx : TreePath) i : path_succ (pfx ++ [i]) = pfx ++ [S i].
Proof. unfold path_succ. by rewrite last_snoc, removelast_last. Qed.

Lemma path_parent_snoc (pfx : TreePath) i : path_parent (pfx ++ [i]) = pfx.
Proof. apply removelast_last. Qed.

Lemma get_row_snoc m pfx i rs :
  siblings m pfx = Some rs -> get_row m (pfx ++ [i]) = rs !! i.
Proof.
  revert m. induction pfx as [|j pfx IH]; intros m H; simpl in *.
  - injection H as ->. by destruct (rs !! i).
  - destruct (m !! j) as [r|]; [|done].
    specialize (IH _ H).
    destruct (pfx ++ [i]) eqn:E; [by destruct pfx|].
    exact IH.
Qed.

Lemma siblings_snoc m pfx i rs r :
  siblings m pfx = Some rs -> rs !! i = Some r ->
  siblings m (pfx ++ [i]) = Some (row_kids r).
Proof.
  revert m. induction pfx as [|j pfx IH]; intros m H Hi; simpl in *.
  - injection H as ->. by rewrite Hi.
  - destruct (m !! j) as [r'|]; [|done]. by apply IH.
Qed.

Lemma get_value0_snoc m pfx i rs :
  siblings m pfx = Some rs ->
  get_value0 m (pfx ++ [i]) = (fun r => c0 (row_data r)) <$> rs !! i.
Proof.
  intros H. unfold get_value0, get_data. rewrite (get_row_snoc _ _ _ _ H).
  by destruct (rs !! i).
Qed.

Lemma iter_children_snoc m pfx i rs d ks :
  siblings m pfx = Some rs -> rs !! i = Some (Node d ks) ->
  iter_children m (pfx ++ [i]) =
    match ks with [] => None | _ => Some ((pfx ++ [i]) ++ [0]) end.
Proof.
  intros H Hi. unfold iter_children.
  by rewrite (get_row_snoc _ _ _ _ H), Hi.
Qed.

Lemma iter_next_snoc m pfx i rs :
  siblings m pfx = Some rs ->
  iter_next m (pfx ++ [i]) =
    match rs !! S i with Some _ => Some (pfx ++ [S i]) | None => None end.
Proof.
  intros H. unfold iter_next.
  by rewrite path_succ_snoc, (get_row_snoc _ _ _ _ H).
Qed.

Lemma iter_parent_snoc m pfx i rs r :
  siblings m pfx = Some rs -> rs !! i = Some r ->
  iter_parent m (pfx ++ [i]) = match pfx with [] => None | _ => Some pfx end.
Proof.
  intros H Hi. unfold iter_parent.
  rewrite path_parent_snoc, (get_row_snoc _ _ _ _ H), Hi.
  by destruct pfx.
Qed.

(** ** The search loop follows [walk_rows] *)

Lemma walk_row_node ref p d ks :
  walk_row ref p (Node d ks) =
    if ref_matches (c0 d) ref then RFound p
    else match ks with
         | [] => RNext
         | _ => match walk_rows ref p 0 ks with
                | Found q => RFound q
                | Climb => RNextOrStop
                | Stop => RStop
                end
         end.
Proof.
  cbn [walk_row]. destruct (ref_matches _ _); [done|].
  match goal with
  | |- context [?f 0 ks] =>
      enough (forall l' i, f i l' = walk_rows ref p i l') as -> by done
  end.
  induction l' as [|a l' IHl]; intros i; [done|].
  cbn [walk_rows]. destruct (walk_row ref (p ++ [i]) a); try done;
    destruct l'; try done; apply IHl.
Qed.

Lemma search_loop_None fuel m ref : search_loop fuel m ref None = Some None.
Proof. by destruct fuel. Qed.

Lemma search_loop_walk m ref n :
  forall pfx rs i l, tree_size l <= n ->
    siblings m pfx = Some rs -> drop i rs = l -> l <> [] ->
    forall k,
      search_loop (tree_size l + k) m ref (Some (pfx ++ [i])) =
        match walk_rows ref pfx i l with
        | Found q => Some (Some q)
        | Stop => Some None
        | Climb =>
            search_loop k m ref
              (match pfx with [] => None | _ => iter_next m pfx end)
        end.
Proof.
  induction n as [|n IH]; intros pfx rs i l Hn Hs Hd Hl k.
  { destruct l as [|[d ks] l']; [done|].
    rewrite tree_size_cons, row_size_node in Hn. lia. }
  destruct l as [|[d ks] l']; [done|]. clear Hl.
  assert (Hi : rs !! i = Some (Node d ks)).
  { rewrite <- (Nat.add_0_r i), <- lookup_drop, Hd. done. }
  assert (Hd' : drop (S i) rs = l').
  { replace (S i) with (i + 1) by lia. by rewrite <- drop_drop, Hd. }
  assert (Hnext : rs !! S i = l' !! 0).
  { rewrite <- Hd', lookup_drop. f_equal. lia. }
  rewrite tree_size_cons, row_size_node in Hn |- *.
  replace (S (tree_size ks) + tree_size l' + k)
    with (S (tree_size ks + (tree_size l' + k))) by lia.
  cbn [search_loop walk_rows]. rewrite walk_row_node.
  rewrite (get_value0_snoc _ _ _ _ Hs), Hi. cbn [fmap option_fmap option_map row_data].
  destruct (ref_matches (c0 d) ref); [done|].
  unfold search_advance.
  rewrite (iter_children_snoc _ _ _ _ _ _ Hs Hi).
  destruct ks as [|k0 ks'].
  - (* a row without children *)
    rewrite (iter_next_snoc _ _ _ _ Hs), Hnext.
    destruct l' as [|r' l''].
    + cbn [lookup list_lookup]. rewrite (iter_parent_snoc _ _ _ _ _ Hs Hi).
      by destruct pfx.
    + cbn [lookup list_lookup]. change (tree_size [] + ?x) with x.
      apply (IH pfx rs (S i)); try done. lia.
  - (* a row with children: the walk goes down *)
    assert (Hks : siblings m (pfx ++ [i]) = Some (k0 :: ks'))
      by apply (siblings_snoc _ _ _ _ _ Hs Hi).
    rewrite (IH (pfx ++ [i]) (k0 :: ks') 0 (k0 :: ks')); try done; [|lia].
    destruct (walk_rows ref (pfx ++ [i]) 0 (k0 :: ks')); try done.
    replace (match pfx ++ [i] with [] => None | _ => iter_next m (pfx ++ [i]) end)
      with (iter_next m (pfx ++ [i])) by (by destruct pfx).
    rewrite (iter_next_snoc _ _ _ _ Hs), Hnext.
    destruct l' as [|r' l'']; [apply search_loop_None|].
    cbn [lookup list_lookup].
    apply (IH pfx rs (S i)); try done. lia.
Qed.

(** With one unit of fuel per row the loop always returns, and what it
    returns is read off [walk_rows]. *)
Lemma get_iter_fuel_walk c ref k :
  get_iter_from_persistent_ref_fuel (tree_size (imodel c) + k) c ref =
    Some match walk_rows (convert_ref (commited_items_converter c) ref)
                 [] 0 (imodel c) with
         | Found q => Some q
         | _ => None
         end.
Proof.
  unfold get_iter_from_persistent_ref_fuel.
  destruct (imodel c) as [|r m] eqn:E.
  - cbn. apply search_loop_None.
  - cbn [get_iter_first].
    rewrite (search_loop_walk (r :: m) _ (tree_size (r :: m)) [] (r :: m) 0 (r :: m));
      try done.
    destruct (walk_rows _ _ _ _); try done. apply search_loop_None.
Qed.

Lemma get_iter_walk c ref :
  get_iter_from_persistent_ref c ref =
    match walk_rows (convert_ref (commited_items_converter c) ref)
            [] 0 (imodel c) with
    | Found q => Some q
    | _ => None
    end.
Proof.
  unfold get_iter_from_persistent_ref.
  replace (S (tree_size (imodel c))) with (tree_size (imodel c) + 1) by lia.
  by rewrite get_iter_fuel_walk.
Qed.

(** A row the walk finds is a row of the store that passes the test. *)
Lemma walk_rows_found m ref q n :
  forall pfx rs i l, tree_size l <= n ->
    siblings m pfx = Some rs -> drop i rs = l ->
    walk_rows ref pfx i l = Found q ->
    exists w, get_value0 m q = Some w /\ ref_matches w ref = true.
Proof.
  induction n as [|n IH]; intros pfx rs i l Hn Hs Hd Hw.
  { destruct l as [|[d ks] l']; [done|].
    rewrite tree_size_cons, row_size_node in Hn. lia. }
  destruct l as [|[d ks] l']; [done|].
  assert (Hi : rs !! i = Some (Node d ks)).
  { rewrite <- (Nat.add_0_r i), <- lookup_drop, Hd. done. }
  assert (Hd' : drop (S i) rs = l').
  { replace (S i) with (i + 1) by lia. by rewrite <- drop_drop, Hd. }
  rewrite tree_size_cons, row_size_node in Hn.
  cbn [walk_rows] in Hw. rewrite walk_row_node in Hw.
  destruct (ref_matches (c0 d) ref) eqn:Hm.
  { injection Hw as <-. exists (c0 d). split; [|done].
    by rewrite (get_value0_snoc _ _ _ _ Hs), Hi. }
  destruct ks as [|k0 ks'].
  - destruct l' as [|r' l'']; [done|].
    apply (IH pfx rs (S i) (r' :: l'')); try done. lia.
  - destruct (walk_rows ref (pfx ++ [i]) 0 (k0 :: ks')) eqn:Hk.
    + injection Hw as <-.
      apply (IH (pfx ++ [i]) (k0 :: ks') 0 (k0 :: ks')); try done; [lia|].
      apply (siblings_snoc _ _ _ _ _ Hs Hi).
    + destruct l' as [|r' l'']; [done|].
      apply (IH pfx rs (S i) (r' :: l'')); try done. lia.
    + done.
Qed.

(** *** Stores of two levels *)

(** Among rows without children the walk is a plain scan. *)
Lemma walk_rows_flat ref pfx :
  forall l i, Forall (fun k => row_kids k = []) l ->
    walk_rows ref pfx i l <> Stop /\
    (Exists (fun k => ref_matches (c0 (row_data k)) ref = true) l ->
     exists q, walk_rows ref pfx i l = Found q).
Proof.
  induction l as [|[d ks] l IH]; intros i Hflat.
  { split; [done|]. by intros ?%Exists_nil. }
  apply Forall_cons in Hflat as [Hks Hflat]. cbn in Hks. subst ks.
  destruct (IH (S i) Hflat) as [IH1 IH2].
  cbn [walk_rows]. rewrite walk_row_node.
  destruct (ref_matches (c0 d) ref) eqn:Hm.
  { split; [done|]. eauto. }
  split.
  - by destruct l.
  - intros [Hd|Hl]%Exists_cons; [cbn in Hd; congruence|].
    destruct l; [by apply Exists_nil in Hl|]. by apply IH2.
Qed.

Lemma walk_rows_two_level ref :
  forall l i, two_level l ->
    Exists (fun r => ref_matches (c0 (row_data r)) ref = true \/
                     Exists (fun k => ref_matches (c0 (row_data k)) ref = true)
                       (row_kids r)) l ->
    exists q, walk_rows ref [] i l = Found q.
Proof.
  induction l as [|[d ks] l IH]; intros i Htwo Hex.
  { by apply Exists_nil in Hex. }
  apply Forall_cons in Htwo as [Hks Htwo]. cbn in Hks.
  cbn [walk_rows]. rewrite walk_row_node.
  destruct (ref_matches (c0 d) ref) eqn:Hm; [eauto|].
  assert (Hrest : forall l0, l = l0 ->
            ~ Exists (fun k => ref_matches (c0 (row_data k)) ref = true) ks ->
            l <> [] /\ exists q, walk_rows ref [] (S i) l = Found q).
  { intros l0 _ Hno. apply Exists_cons in Hex as [[Hd|Hk]|Hl]; cbn in *.
    - congruence.
    - done.
    - split; [by destruct l; [apply Exists_nil in Hl|]|]. by apply IH. }
  destruct ks as [|k0 ks'].
  - destruct (Hrest l eq_refl) as [Hne Hq]; [by intros ?%Exists_nil|].
    by destruct l.
  - destruct (walk_rows_flat ref ([] ++ [i]) (k0 :: ks') 0 Hks) as [Hns Hfound].
    destruct (walk_rows ref ([] ++ [i]) 0 (k0 :: ks')) eqn:Hk; [eauto| |done].
    destruct (Hrest l eq_refl) as [Hne Hq].
    { intros Hex'. destruct (Hfound Hex') as [? ?]. done. }
    by destruct l.
Qed.

(** In a store of two levels a row is a top-level row or one of its
    children. *)
Lemma two_level_row m p v :
  two_level m -> get_value0 m p = Some v ->
  Exists (fun r => c0 (row_data r) = v \/
                   Exists (fun k => c0 (row_data k) = v) (row_kids r)) m.
Proof.
  intros Htwo Hv. unfold get_value0, get_data in Hv.
  destruct (get_row m p) as [r|] eqn:Hr; [|done]. cbn in Hv. injection Hv as Hv.
  destruct p as [|a [|b p']]; [done| |]; cbn [get_row] in Hr.
  - destruct (m !! a) as [ra|] eqn:Ha; [|done]. injection Hr as ->.
    apply Exists_exists. exists r. split; [|by left].
    by apply list_elem_of_lookup_2 with a.
  - destruct (m !! a) as [ra|] eqn:Ha; [|done].
    assert (Hra : ra ∈ m) by by apply list_elem_of_lookup_2 with a.
    apply Exists_exists. exists ra. split; [done|]. right.
    destruct (row_kids ra !! b) as [k|] eqn:Hb; [|done].
    assert (Hk : k ∈ row_kids ra) by by apply list_elem_of_lookup_2 with b.
    destruct p' as [|e p''].
    + injection Hr as ->. apply Exists_exists. by exists r.
    + unfold two_level in Htwo. rewrite Forall_forall in Htwo.
      specialize (Htwo ra Hra). rewrite Forall_forall in Htwo.
      rewrite (Htwo k Hk) in Hr. done.
Qed.

Lemma py_eq_refl v : py_eq v v = true.
Proof. destruct v; cbn; try done; by rewrite bool_decide_eq_true. Qed.

Lemma ref_matches_refl v : ref_matches v v = true.
Proof. unfold ref_matches. by rewrite py_eq_refl. Qed.

(** C5 (amended).  In an ingredient model of two levels (top-level rows
    and the children of groups, no group inside a group), for every row
    whose column-0 value passes the search test on no other row and is
    not remapped by [commited_items_converter],
    [get_iter_from_persistent_ref] applied to
    [get_persistent_ref_from_iter] of the row's iterator returns that
    iterator; and in any model, when no row passes the test for a
    reference, [get_iter_from_persistent_ref] returns [None].  In both
    cases the loop ends within one step per row. *)
Theorem persistent_ref_round_trip (c : IngredientController) :
  (forall p v,
     two_level (imodel c) ->
     get_persistent_ref_from_iter c p = Some v ->
     (forall q w, get_value0 (imodel c) q = Some w ->
                  ref_matches w v = true -> q = p) ->
     convert_ref (commited_items_converter c) v = v ->
     get_iter_from_persistent_ref c v = Some p /\
     forall k, get_iter_from_persistent_ref_fuel
                 (tree_size (imodel c) + k) c v = Some (Some p)) /\
  (forall ref,
     (forall q w, get_value0 (imodel c) q = Some w ->
        ref_matches w (convert_ref (commited_items_converter c) ref) = false) ->
     get_iter_from_persistent_ref c ref = None /\
     forall k, get_iter_from_persistent_ref_fuel
                 (tree_size (imodel c) + k) c ref = Some None).
Proof.
  split.
  - intros p v Htwo Hv Huniq Hconv.
    unfold get_persistent_ref_from_iter in Hv.
    assert (Hw : walk_rows v [] 0 (imodel c) = Found p).
    { destruct (walk_rows_two_level v (imodel c) 0 Htwo) as [q Hq].
      { eapply Exists_impl; [apply (two_level_row _ _ _ Htwo Hv)|].
        intros r [<-|Hk]; [left; apply ref_matches_refl|right].
        eapply Exists_impl; [exact Hk|].
        intros k <-. apply ref_matches_refl. }
      destruct (walk_rows_found (imodel c) v q (tree_size (imodel c))
                  [] (imodel c) 0 (imodel c)) as (w & Hq1 & Hq2); try done.
      by rewrite (Huniq q w Hq1 Hq2) in Hq. }
    split; [|intros k]; rewrite ?get_iter_walk, ?get_iter_fuel_walk, Hconv, Hw;
      done.
  - intros ref Hnone.
    assert (Hw : forall q, walk_rows (convert_ref (commited_items_converter c) ref)
                             [] 0 (imodel c) <> Found q).
    { intros q Hq.
      destruct (walk_rows_found (imodel c)
                  (convert_ref (commited_items_converter c) ref) q
                  (tree_size (imodel c)) [] (imodel c) 0 (imodel c))
        as (w & Hq1 & Hq2); try done.
      by rewrite (Hnone q w Hq1) in Hq2. }
    split; [|intros k]; rewrite ?get_iter_walk, ?get_iter_fuel_walk;
      destruct (walk_rows _ _ _ _) eqn:E; try done; by destruct (Hw p).
Qed.

(** ** The image box *)

(** C10.  [ImageBox.commit] returns the serialized image and thumbnail
    when an image is attached and the pair [(None, None)] when none is;
    so it returns both byte strings after [set_from_bytes] and
    [(None, None)] for a new box and after [remove_image]. *)
Theorem ImageBox_commit_result :
  (forall b,
     snd (ImageBox_commit b) =
       match image b with
       | Some _ => (Some (image_to_bytes (image b)),
                    Some (image_to_bytes (thumbnail b)))
       | None => (None, None)
       end) /\
  (forall b bytes_,
     snd (ImageBox_commit (ImageBox_set_from_bytes b bytes_)) =
       (Some (image_to_bytes (Some (bytes_to_image bytes_))),
        Some (image_to_bytes (Some (make_thumbnail (bytes_to_image bytes_)))))) /\
  (forall b, snd (ImageBox_commit (ImageBox_remove_image b)) = (None, None)) /\
  snd (ImageBox_commit ImageBox_init) = (None, None).
Proof.
  repeat split; try done.
  intros b. unfold ImageBox_commit. by destruct (image b).
Qed.

(** ** The commit pass: comparing with the stored object *)

(** None of the compared attribute names is an attribute of a dictionary,
    so the loop that should drop the unchanged attributes drops nothing. *)
Lemma drop_unchanged_keeps_all i d : drop_unchanged i d = Some d.
Proof. reflexivity. Qed.

(** ** Groups are created at the top level *)

Lemma get_row_single (m : list Row) a : get_row m [a] = m !! a.
Proof. cbn. by destruct (m !! a). Qed.

Lemma get_row_cons (m : list Row) a p r :
  p <> [] -> m !! a = Some r -> get_row m (a :: p) = get_row (row_kids r) p.
Proof. intros Hp Ha. cbn. rewrite Ha. by destruct p. Qed.

Lemma get_row_cons_inv (m : list Row) a p r :
  get_row m (a :: p) = Some r ->
  exists ra, m !! a = Some ra /\
    match p with [] => r = ra | _ => get_row (row_kids ra) p = Some r end.
Proof.
  cbn. destruct (m !! a) as [ra|]; [|done]. intros H. exists ra.
  split; [done|]. destruct p; [by injection H|done].
Qed.

Lemma get_row_removelast p : forall (m : list Row) r,
  get_row m p = Some r -> 2 <= length p ->
  is_Some (get_row m (removelast p)).
Proof.
  induction p as [|a p IH]; intros m r Hr Hlen; [done|].
  destruct p as [|b p']; [cbn in Hlen; lia|].
  apply get_row_cons_inv in Hr as (ra & Ha & Hr).
  destruct p' as [|e p''].
  - change (removelast [a; b]) with [a]. rewrite get_row_single, Ha. eauto.
  - change (removelast (a :: b :: e :: p''))
      with (a :: removelast (b :: e :: p'')).
    rewrite (get_row_cons m a _ ra); [|by destruct p''|done].
    apply (IH _ r Hr). cbn. lia.
Qed.

Lemma removelast_length (l : list nat) :
  length (removelast l) = length l - 1.
Proof.
  induction l as [|x l IH]; [done|].
  destruct l as [|y l]; [done|].
  change (removelast (x :: y :: l)) with (x :: removelast (y :: l)).
  cbn [length] in *. lia.
Qed.

Lemma climb_to_top_valid n : forall (m : list Row) a rest r,
  get_row m (a :: rest) = Some r -> length rest <= n ->
  climb_to_top n m (a :: rest) = [a].
Proof.
  induction n as [|n IH]; intros m a rest r Hr Hn.
  { by destruct rest; [|cbn in Hn; lia]. }
  cbn [climb_to_top]. unfold iter_parent, path_parent.
  destruct rest as [|b rest']; [done|].
  change (removelast (a :: b :: rest')) with (a :: removelast (b :: rest')).
  rewrite Hr.
  destruct (get_row_removelast (a :: b :: rest') m r Hr) as [r' Hr'];
    [cbn; lia|].
  apply (IH m a (removelast (b :: rest')) r' Hr').
  rewrite removelast_length. cbn [length] in *. lia.
Qed.

Lemma ts_insert_after_top (m : list Row) a r :
  m !! a = Some r ->
  ts_insert_after m [a] = Some (insert_row (S a) empty_row m, [S a]).
Proof.
  intros Ha. unfold ts_insert_after.
  by rewrite get_row_single, Ha.
Qed.

Lemma insert_row_lookup (m : list Row) i x :
  i <= length m -> insert_row i x m !! i = Some x.
Proof.
  intros Hi. unfold insert_row.
  rewrite lookup_app_r; rewrite length_take_le; try lia.
  by rewrite Nat.sub_diag.
Qed.

Lemma insert_row_replace (m : list Row) i x y :
  i <= length m -> <[i := y]> (insert_row i x m) = insert_row i y m.
Proof.
  intros Hi. unfold insert_row.
  rewrite insert_app_r_alt; rewrite length_take_le; try lia.
  by rewrite Nat.sub_diag.
Qed.

Lemma ts_update_top (m : list Row) i d f :
  i <= length m ->
  ts_update (insert_row i (Node d []) m) [i] f =
    Some (insert_row i (Node (f d) []) m).
Proof.
  intros Hi. unfold ts_update.
  rewrite get_row_single, insert_row_lookup; [|done].
  cbn. by rewrite insert_row_replace.
Qed.

Lemma add_group_insert_top (m : list Row) (prev_iter : option (list nat))
    (fallback_on_append : bool) :
  match prev_iter with
  | Some p => is_Some (get_row m p)
  | None => True
  end ->
  let i := match prev_iter with
           | None => if fallback_on_append then length m else 0
           | Some p => S (hd 0 p)
           end in
  i <= length m /\
  add_group_insert m prev_iter fallback_on_append =
    Some (insert_row i empty_row m, [i]).
Proof.
  intros Hprev i. unfold add_group_insert. subst i.
  destruct prev_iter as [p|].
  - destruct Hprev as [r Hr]. destruct p as [|a rest]; [done|].
    rewrite (climb_to_top_valid _ m a rest r Hr); [|cbn; lia].
    apply get_row_cons_inv in Hr as (ra & Ha & _).
    cbn [hd]. split; [by apply lookup_lt_Some in Ha|].
    by apply ts_insert_after_top with ra.
  - destruct fallback_on_append.
    + split; [done|]. unfold ts_append, insert_row. cbn.
      by rewrite firstn_all, drop_all.
    + split; [lia|]. done.
Qed.

(** X1.  [add_group] puts the new group row at the top level: with no
    [prev_iter] at the end or the start of the top level, and with a
    [prev_iter] anywhere in the tree right after that row's top-level
    ancestor.  The row gets ["GROUP name"] and the name, the other rows
    stay as they are, and the new row has no parent. *)
Theorem add_group_at_top_level (c : IngredientController) (name : pyval)
    (prev_iter : option (list nat)) (fallback_on_append : bool)
    (col : option string) :
  to_col name = Some col ->
  match prev_iter with
  | Some p => is_Some (get_row (imodel c) p)
  | None => True
  end ->
  let i := match prev_iter with
           | None => if fallback_on_append then length (imodel c) else 0
           | Some p => S (hd 0 p)
           end in
  let row := Node (mkRowData (OStr ("GROUP " +:+ py_str name)) col
                     None None false) [] in
  i <= length (imodel c) /\
  add_group_insert (imodel c) prev_iter fallback_on_append =
    Some (insert_row i empty_row (imodel c), [i]) /\
  add_group c name prev_iter [] fallback_on_append =
    Some (with_imodel c (insert_row i row (imodel c)), [i]) /\
  get_row (insert_row i row (imodel c)) [i] = Some row /\
  iter_parent (insert_row i row (imodel c)) [i] = None.
Proof.
  intros Hcol Hprev i row.
  destruct (add_group_insert_top (imodel c) prev_iter fallback_on_append Hprev)
    as [Hi Hins].
  fold i in Hi, Hins.
  split; [done|]. split; [done|]. split; [|split].
  - unfold add_group. rewrite Hins. cbn [mbind option_bind].
    unfold empty_row. rewrite ts_update_top; [|done].
    cbn [mbind option_bind]. rewrite Hcol. cbn [mbind option_bind].
    rewrite ts_update_top; [|done]. done.
  - by rewrite get_row_single, insert_row_lookup.
  - done.
Qed.

(** ** What the structural changes do to the rows of the store *)

Ltac norm_app :=
  repeat (rewrite <- app_assoc || rewrite <- app_comm_cons); cbn [app].

Lemma tree_flat_cons r l : tree_flat (r :: l) = row_flat r ++ tree_flat l.
Proof. reflexivity. Qed.

Lemma row_flat_node d ks : row_flat (Node d ks) = d :: tree_flat ks.
Proof. reflexivity. Qed.

Lemma tree_flat_app l1 l2 : tree_flat (l1 ++ l2) = tree_flat l1 ++ tree_flat l2.
Proof.
  induction l1 as [|r l1 IH]; [done|].
  rewrite <- app_comm_cons, !tree_flat_cons, IH. by rewrite (assoc_L (++)).
Qed.

Lemma tree_flat_middle (rs : list Row) i d ks :
  rs !! i = Some (Node d ks) ->
  tree_flat rs =
    tree_flat (take i rs) ++ d :: tree_flat ks ++ tree_flat (drop (S i) rs).
Proof.
  intros Hi. rewrite <- (take_drop_middle rs i _ Hi) at 1.
  by rewrite tree_flat_app, tree_flat_cons, row_flat_node.
Qed.

Lemma tree_flat_insert (rs : list Row) i d ks r' :
  rs !! i = Some (Node d ks) ->
  tree_flat (<[i := r']> rs) =
    tree_flat (take i rs) ++ row_flat r' ++ tree_flat (drop (S i) rs).
Proof.
  intros Hi. rewrite insert_take_drop; [|by apply lookup_lt_Some in Hi].
  by rewrite tree_flat_app, tree_flat_cons.
Qed.

(** A change below the row at [p] touches only the rows below it. *)
Lemma alter_siblings_flat f p : forall (m m' : list Row),
  alter_siblings f m p = Some m' ->
  exists rs rs' l1 l2,
    siblings m p = Some rs /\ f rs = Some rs' /\ siblings m' p = Some rs' /\
    tree_flat m = l1 ++ tree_flat rs ++ l2 /\
    tree_flat m' = l1 ++ tree_flat rs' ++ l2.
Proof.
  induction p as [|i p IH]; intros m m' H; cbn in H.
  - exists m, m', [], []. by rewrite !app_nil_r.
  - destruct (m !! i) as [[d ks]|] eqn:Hi; [|done].
    destruct (alter_siblings f ks p) as [ks'|] eqn:Hks; [|done].
    injection H as <-.
    destruct (IH ks ks' Hks) as (rs & rs' & l1 & l2 & H1 & H2 & H3 & H4 & H5).
    exists rs, rs', (tree_flat (take i m) ++ d :: l1),
      (l2 ++ tree_flat (drop (S i) m)).
    cbn [siblings]. rewrite Hi. cbn [row_kids].
    rewrite list_lookup_insert_eq; [|by apply lookup_lt_Some in Hi].
    cbn [row_kids]. repeat split; try done.
    + rewrite (tree_flat_middle m i d ks Hi), H4.
      by norm_app.
    + rewrite (tree_flat_insert m i d ks _ Hi), row_flat_node, H5.
      by norm_app.
Qed.

Lemma get_row_snoc_inv p : forall (m : list Row) i r,
  get_row m (p ++ [i]) = Some r ->
  exists rs, siblings m p = Some rs /\ rs !! i = Some r.
Proof.
  induction p as [|a p IH]; intros m i r H.
  - cbn [app] in H. rewrite get_row_single in H. by exists m.
  - rewrite <- app_comm_cons in H.
    apply get_row_cons_inv in H as (ra & Ha & H).
    cbn [siblings]. rewrite Ha.
    destruct (p ++ [i]) eqn:E; [by destruct p|]. rewrite <- E in H.
    by apply IH.
Qed.

Lemma path_split (p : list nat) i :
  last p = Some i -> p = removelast p ++ [i].
Proof.
  intros H. destruct (last_Some p i) as [[l' ->] _]; [done|].
  by rewrite removelast_last.
Qed.

(** Writing to the columns of a row replaces that row's entry. *)
Lemma ts_update_flat (m m' : list Row) it f :
  ts_update m it f = Some m' ->
  exists d ks l1 l2,
    get_row m it = Some (Node d ks) /\
    tree_flat m = l1 ++ d :: l2 /\ tree_flat m' = l1 ++ f d :: l2.
Proof.
  unfold ts_update. intros H.
  destruct (get_row m it) as [[d ks]|] eqn:Hr; [|done].
  destruct (last it) as [i|] eqn:Hl; [|done].
  rewrite (path_split it i Hl) in Hr.
  apply get_row_snoc_inv in Hr as (rs0 & Hs0 & Hi).
  apply alter_siblings_flat in H
    as (rs & rs' & l1 & l2 & H1 & H2 & _ & H4 & H5).
  unfold path_parent in H1. rewrite Hs0 in H1. injection H1 as <-.
  injection H2 as <-.
  exists d, ks, (l1 ++ tree_flat (take i rs0)),
    (tree_flat ks ++ tree_flat (drop (S i) rs0) ++ l2).
  split; [done|]. split.
  - rewrite H4, (tree_flat_middle rs0 i d ks Hi).
    by norm_app.
  - rewrite H5, (tree_flat_insert rs0 i d ks _ Hi), row_flat_node.
    by norm_app.
Qed.

(** *** New rows *)

Lemma insert_row_flat i x (rs : list Row) :
  tree_flat (insert_row i x rs) ≡ₚ row_flat x ++ tree_flat rs.
Proof.
  unfold insert_row. rewrite <- (take_drop i rs) at 3.
  rewrite !tree_flat_app, tree_flat_cons.
  apply Permutation_app_swap_app.
Qed.

Lemma alter_new_row f pp j x (m m1 : list Row) :
  alter_siblings f m pp = Some m1 ->
  (forall rs rs', f rs = Some rs' -> siblings m pp = Some rs ->
     rs' !! j = Some x /\ tree_flat rs' ≡ₚ row_flat x ++ tree_flat rs) ->
  get_row m1 (pp ++ [j]) = Some x /\
  tree_flat m1 ≡ₚ row_flat x ++ tree_flat m.
Proof.
  intros H Hf.
  apply alter_siblings_flat in H
    as (rs & rs' & l1 & l2 & H1 & H2 & H3 & H4 & H5).
  destruct (Hf rs rs' H2 H1) as [Hj Hp]. split.
  - by rewrite (get_row_snoc _ _ _ _ H3).
  - rewrite H4, H5, Hp. rewrite <- !app_assoc.
    apply Permutation_app_swap_app.
Qed.

Lemma ts_append_creates (m m1 : list Row) parent it :
  ts_append m parent = Some (m1, it) -> creates_row m m1 it.
Proof.
  unfold ts_append. intros H.
  destruct (siblings m (default [] parent)) as [rs|] eqn:Hs; [|done].
  destruct (alter_siblings _ m _) as [m'|] eqn:Ha; [|done].
  injection H as <- <-.
  apply (alter_new_row _ _ (length rs) empty_row) in Ha; [done|].
  intros rs0 rs' [= <-] Hs0. rewrite Hs in Hs0. injection Hs0 as <-.
  split.
  - by rewrite lookup_app_r, Nat.sub_diag.
  - rewrite tree_flat_app. cbn. by rewrite <- Permutation_cons_append.
Qed.

Lemma ts_prepend_creates (m : list Row) :
  creates_row m (ts_prepend m).1 (ts_prepend m).2.
Proof. done. Qed.

Lemma ts_insert_after_creates (m m1 : list Row) sibling it :
  ts_insert_after m sibling = Some (m1, it) -> creates_row m m1 it.
Proof.
  unfold ts_insert_after. intros H.
  destruct (get_row m sibling) as [r|] eqn:Hr; [|done].
  destruct (last sibling) as [i|] eqn:Hl; [|done].
  destruct (alter_siblings _ m _) as [m'|] eqn:Ha; [|done].
  injection H as <- <-.
  rewrite (path_split sibling i Hl) in Hr.
  apply get_row_snoc_inv in Hr as (rs0 & Hs0 & Hi).
  unfold path_succ. rewrite Hl.
  apply (alter_new_row _ _ (S i) empty_row) in Ha; [done|].
  intros rs rs' [= <-] Hs. unfold path_parent in Hs.
  rewrite Hs0 in Hs. injection Hs as <-. split.
  - apply insert_row_lookup. apply lookup_lt_Some in Hi. lia.
  - apply insert_row_flat.
Qed.

Lemma _new_iter_creates (m m1 : list Row) group_iter prev_iter fallback it :
  _new_iter_ m group_iter prev_iter fallback = Some (m1, it) ->
  creates_row m m1 it.
Proof.
  unfold _new_iter_. intros H.
  destruct group_iter as [g|], prev_iter as [p|];
    cbn -[ts_append ts_insert_after ts_prepend] in H.
  - destruct (ts_insert_after m p) as [[m' it']|] eqn:E; [|done].
    cbn in H. injection H as <- <-. by apply ts_insert_after_creates in E.
  - destruct (get_value0 m g) as [v|]; [|done]. cbn in H.
    destruct (isinstance_str v); cbn in H.
    + destruct (ts_append m (Some g)) as [[m' it']|] eqn:E; [|done].
      cbn in H. injection H as <- <-. by apply ts_append_creates in E.
    + destruct (ts_insert_after m g) as [[m' it']|] eqn:E; [|done].
      cbn in H. injection H as <- <-. by apply ts_insert_after_creates in E.
  - destruct (ts_insert_after m p) as [[m' it']|] eqn:E; [|done].
    cbn in H. injection H as <- <-. by apply ts_insert_after_creates in E.
  - destruct fallback.
    + by apply ts_append_creates in H.
    + injection H as <- <-. apply ts_prepend_creates.
Qed.

Lemma update_row_data_c0 kw d d' : update_row_data kw d = Some d' -> c0 d' = c0 d.
Proof.
  unfold update_row_data. intros H.
  repeat (match type of H with
          | context [match ?x with _ => _ end] => destruct x
          end; cbn in H; try discriminate H);
    by injection H as <-.
Qed.

Lemma update_ingredient_row_values (m m' : list Row) it kw :
  update_ingredient_row m it kw = Some m' -> tree_values m' = tree_values m.
Proof.
  unfold update_ingredient_row, get_data. intros H.
  destruct (get_row m it) as [[d ks]|] eqn:Hr; [|done]. cbn in H.
  destruct (update_row_data kw d) as [d'|] eqn:Hd; [|done]. cbn in H.
  apply ts_update_flat in H as (d0 & ks0 & l1 & l2 & H1 & H2 & H3).
  rewrite Hr in H1. injection H1 as <- <-.
  unfold tree_values. rewrite H2, H3, !fmap_app, !fmap_cons.
  by rewrite (update_row_data_c0 _ _ _ Hd).
Qed.

(** A row made by [add_ingredient_from_kwargs] adds one value to column 0. *)
Lemma add_ingredient_from_kwargs_values c g p fb ph kw c' it :
  add_ingredient_from_kwargs c g p fb ph kw = Some (c', it) ->
  exists v,
    get_value0 (imodel c') it = Some v /\
    tree_values (imodel c') ≡ₚ v :: tree_values (imodel c) /\
    current_rec_id c' = current_rec_id c /\
    v = (if pyval_truthy (default PNone (kw !! "refid")) then
           ORecRef (RecRef_init (next_oid c) (default PNone (kw !! "refid"))
                      (default (PStr "") (kw !! "item")))
         else match ph with
              | ONone => OInt (new_item_count c)
              | _ => ph
              end).
Proof.
  unfold add_ingredient_from_kwargs. intros H.
  destruct (_new_iter_ (imodel c) g p fb) as [[m1 it1]|] eqn:Hn; [|done].
  cbn in H.
  set (v := if pyval_truthy (default PNone (kw !! "refid")) then _ else _ : pyobj).
  assert (Hv : exists count oid,
    (if pyval_truthy (default PNone (kw !! "refid")) then
       (ORecRef (RecRef_init (next_oid c) (default PNone (kw !! "refid"))
                   (default (PStr "") (kw !! "item"))),
        new_item_count c, S (next_oid c))
     else match ph with
          | ONone => (OInt (new_item_count c), (new_item_count c + 1)%Z,
                      next_oid c)
          | _ => (ph, new_item_count c, next_oid c)
          end) = (v, count, oid)).
  { subst v. destruct (pyval_truthy _); [by eauto|]. destruct ph; by eauto. }
  destruct Hv as (count & oid & Hv). rewrite Hv in H.
  destruct (ts_update m1 it1 (set_c0 v)) as [m2|] eqn:Hu; [|done]. cbn in H.
  destruct (update_ingredient_row m2 it1 kw) as [m3|] eqn:Hr; [|done].
  cbn in H. injection H as <- <-. cbn [imodel current_rec_id].
  exists v. apply _new_iter_creates in Hn as [Hrow Hperm].
  pose proof (update_ingredient_row_values _ _ _ _ Hr) as Hvals.
  pose proof Hu as Hu'.
  apply ts_update_flat in Hu as (d & ks & l1 & l2 & H1 & H2 & H3).
  rewrite Hrow in H1. injection H1 as <- <-.
  split; [|split; [|done]].
  - (* the row still holds [v] after the other columns are written *)
    unfold update_ingredient_row, get_data in Hr.
    destruct (get_row m2 it1) as [[d2 ks2]|] eqn:Hr2; [|done]. cbn in Hr.
    destruct (update_row_data kw d2) as [d3|] eqn:Hd; [|done]. cbn in Hr.
    assert (Hc : c0 d2 = v).
    { unfold ts_update in Hu'. rewrite Hrow in Hu'.
      destruct (last it1) as [i|] eqn:Hl; [|done].
      apply alter_siblings_flat in Hu'
        as (rs & rs' & _ & _ & Hs & [= <-] & Hs' & _).
      rewrite (path_split it1 i Hl), (get_row_snoc _ _ _ _ Hs') in Hr2.
      rewrite (path_split it1 i Hl) in Hrow.
      apply get_row_snoc_inv in Hrow as (rs0 & Hs0 & Hi).
      unfold path_parent in Hs. rewrite Hs0 in Hs. injection Hs as <-.
      rewrite list_lookup_insert_eq in Hr2; [|by apply lookup_lt_Some in Hi].
      by injection Hr2 as <- <-. }
    unfold ts_update in Hr. rewrite Hr2 in Hr.
    destruct (last it1) as [i|] eqn:Hl; [|done].
    apply alter_siblings_flat in Hr
      as (rs & rs' & _ & _ & Hs & [= <-] & Hs' & _).
    unfold get_value0, get_data.
    rewrite (path_split it1 i Hl), (get_row_snoc _ _ _ _ Hs').
    rewrite (path_split it1 i Hl) in Hr2.
    apply get_row_snoc_inv in Hr2 as (rs0 & Hs0 & Hi).
    unfold path_parent in Hs. rewrite Hs0 in Hs. injection Hs as <-.
    rewrite list_lookup_insert_eq; [|by apply lookup_lt_Some in Hi].
    cbn. f_equal. rewrite (update_row_data_c0 _ _ _ Hd). exact Hc.
  - rewrite Hvals. unfold tree_values in *. rewrite H3.
    rewrite H2 in Hperm. rewrite fmap_app, fmap_cons. cbn [set_c0 c0].
    rewrite <- Permutation_middle. constructor.
    apply (fmap_Permutation c0) in Hperm.
    rewrite fmap_app, !fmap_cons in Hperm. cbn [c0 row_data empty_row] in Hperm.
    rewrite <- Permutation_middle in Hperm.
    apply Permutation_cons_inv in Hperm. exact Hperm.
Qed.

(** ** The recipe selector *)

Lemma ok_fold_None pre_iter selected :
  foldl (ok_step pre_iter) None selected = None.
Proof. by induction selected. Qed.

Lemma ok_fold pre_iter selected : forall c shown c' shown',
  foldl (ok_step pre_iter) (Some (c, shown)) selected = Some (c', shown') ->
  exists created,
    tree_values (imodel c') ≡ₚ created ++ tree_values (imodel c) /\
    Forall (fun v => is_self_reference (current_rec_id c) v = false) created /\
    length created =
      length (filter (fun r => pyval_eq (rec_id r) (current_rec_id c) = false)
                selected) /\
    shown' =
      shown +
      length (filter (fun r => pyval_eq (rec_id r) (current_rec_id c) = true)
                selected) /\
    current_rec_id c' = current_rec_id c.
Proof.
  induction selected as [|rec selected IH]; intros c shown c' shown' H.
  { injection H as <- <-. exists []. cbn. repeat split; try done; lia. }
  cbn [foldl] in H. unfold ok_step at 2 in H. cbn [mbind option_bind] in H.
  rewrite !filter_cons.
  destruct (pyval_eq (rec_id rec) (current_rec_id c)) eqn:Heq.
  - (* the recipe itself: a message, no row *)
    destruct (IH _ _ _ _ H) as (created & H1 & H2 & H3 & H4 & H5).
    exists created. rewrite decide_False, decide_True; [|done..].
    repeat split; try done. cbn [length]. lia.
  - destruct (add_ingredient_from_kwargs _ _ _ _ _ _) as [[c1 it]|] eqn:Ha;
      [|by rewrite ok_fold_None in H].
    change (foldl (ok_step pre_iter) (Some (c1, shown)) selected
            = Some (c', shown')) in H.
    apply add_ingredient_from_kwargs_values in Ha as (v & _ & Hv & Hid & Hval).
    destruct (IH _ _ _ _ H) as (created & H1 & H2 & H3 & H4 & H5).
    rewrite Hid in H2, H3, H4, H5.
    exists (created ++ [v]). rewrite decide_True, decide_False; [|done..].
    repeat split; try done.
    + by rewrite H1, Hv, <- app_assoc.
    + apply Forall_app. split; [done|]. constructor; [|done].
      rewrite Hval, !lookup_insert_eq. unfold default, id.
      destruct (pyval_truthy (rec_id rec)); [exact Heq|done].
    + rewrite length_app, H3. cbn [length]. lia.
Qed.

(** X2.  [RecSelector.ok] makes no row that refers to the recipe being
    edited: of the selected recipes, those with the id of the current
    recipe get a message each and no row; every other one gets one new
    row, and none of the new rows is a reference to the current recipe.
    The rows that were there stay. *)
Theorem RecSelector_ok_no_self_reference c pre_iter selected c' shown :
  RecSelector_ok c pre_iter selected = Some (c', shown) ->
  exists created,
    tree_values (imodel c') ≡ₚ created ++ tree_values (imodel c) /\
    Forall (fun v => is_self_reference (current_rec_id c) v = false) created /\
    length created =
      length (filter (fun r => pyval_eq (rec_id r) (current_rec_id c) = false)
                selected) /\
    shown =
      length (filter (fun r => pyval_eq (rec_id r) (current_rec_id c) = true)
                selected).
Proof.
  intros H. apply ok_fold in H as (created & H1 & H2 & H3 & H4 & _).
  exists created. by repeat split.
Qed.

(** ** The commit pass is a fold over the rows it reaches *)

(** From here on a proof depends only on the functions its statement
    names. *)
Set Default Proof Using "Type".

(** Takes the functions a statement does not name out of the context. *)
Ltac only_named :=
  try clear row_equal; try clear get_amount_as_string; try clear parse_range;
  try clear add_ing_result; try clear path_prev; try clear move_iter;
  try clear yield_selector_run; try clear make_thumbnail;
  try clear bytes_to_image; try clear image_to_bytes; try clear Bytes;
  try clear Image; try clear parse_ingredient;
  try clear format_amount_string_from_amount; try clear float_to_frac;
  try clear row_expanded.

Lemma commit_iter_node rec_id d ks pos group s :
  commit_iter rec_id (Node d ks) pos group s =
    if isinstance_str (c0 d) then
      match commit_rows rec_id ks pos (of_col (c1 d)) s with
      | Some (ks', pos', s') => Some (Node d ks', pos', s')
      | None => None
      end
    else
      match commit_row rec_id d pos group s with
      | Some (d', s') => Some (Node d' ks, (pos + 1)%Z, s')
      | None => None
      end.
Proof.
  only_named.
  cbn [commit_iter]. destruct (isinstance_str (c0 d)); [|done].
  match goal with
  | |- match ?f ks pos s with _ => _ end = _ =>
      enough (forall l p0 s0, f l p0 s0 = commit_rows rec_id l p0 (of_col (c1 d)) s0)
        as -> by done
  end.
  induction l as [|k l IH]; intros p0 s0; [done|].
  cbn [commit_rows]. destruct (commit_iter _ _ _ _ _) as [[[k' p1] s1]|]; [|done].
  by rewrite IH.
Qed.

Lemma visited_row_node group d ks :
  visited_row group (Node d ks) =
    if isinstance_str (c0 d) then visited_rows (of_col (c1 d)) ks
    else [(d, group)].
Proof.
  only_named.
  cbn [visited_row]. destruct (isinstance_str (c0 d)); [|done].
  induction ks as [|k ks IH]; [done|]. cbn [visited_rows]. by rewrite IH.
Qed.

Lemma commit_fold_app rec_id xs ys pos s :
  commit_fold rec_id (xs ++ ys) pos s =
    match commit_fold rec_id xs pos s with
    | Some (p, s') => commit_fold rec_id ys p s'
    | None => None
    end.
Proof.
  only_named.
  revert pos s. induction xs as [|[d g] xs IH]; intros pos s; [done|].
  cbn [app commit_fold]. destruct (commit_row _ _ _ _ _) as [[d' s']|]; [|done].
  apply IH.
Qed.

Lemma commit_rows_fold rec_id n : forall l pos g s,
  tree_size l <= n ->
  (fun r : list Row * Z * CommitState => (r.1.2, r.2)) <$>
    commit_rows rec_id l pos g s =
  commit_fold rec_id (visited_rows g l) pos s.
Proof.
  only_named.
  induction n as [|n IH]; intros l pos g s Hn.
  { destruct l as [|[d ks] l]; [done|].
    rewrite tree_size_cons, row_size_node in Hn. lia. }
  destruct l as [|[d ks] l]; [done|].
  rewrite tree_size_cons, row_size_node in Hn.
  cbn [commit_rows visited_rows].
  rewrite commit_fold_app, commit_iter_node, visited_row_node.
  destruct (isinstance_str (c0 d)).
  - rewrite <- (IH ks); [|lia].
    destruct (commit_rows rec_id ks pos (of_col (c1 d)) s)
      as [[[ks' p1] s1]|]; [|done].
    cbn. rewrite <- (IH l); [|lia].
    by destruct (commit_rows rec_id l p1 g s1) as [[[l' p2] s2]|].
  - cbn [commit_fold].
    destruct (commit_row rec_id d pos g s) as [[d' s']|]; [|done].
    rewrite <- (IH l); [|lia].
    by destruct (commit_rows rec_id l (pos + 1) g s') as [[[l' p2] s2]|].
Qed.

(** *** One row *)

Lemma conv_get_set_eq conv k v : conv_get (conv_set conv k v) k = Some v.
Proof.
  only_named.
  induction conv as [|[k' v'] conv IH]; cbn.
  - by rewrite py_eq_refl.
  - destruct (py_eq k' k) eqn:E; cbn; by rewrite E.
Qed.




Lemma commit_dict_lookup d pos g :
  commit_dict d pos g !! "position" = Some (PInt pos) /\
  commit_dict d pos g !! "inggroup" = Some g /\
  commit_dict d pos g !! "unit" = Some (of_col (c2 d)) /\
  commit_dict d pos g !! "item" = Some (of_col (c3 d)) /\
  commit_dict d pos g !! "optional" = Some (PBool (c4 d)) /\
  (forall r, c0 d = ORecRef r ->
     commit_dict d pos g !! "refid" = Some (rr_refid r)).
Proof.
  only_named.
  unfold commit_dict, rowdict_of, get_extra_ingredient_attributes.
  repeat match goal with
         | |- context [match ?x with _ => _ end] => destruct x eqn:?
         end;
    repeat split; intros; simplify_map_eq; done.
Qed.

Lemma commit_row_old rec_id d pos g s ing :
  c0 d = OIng ing ->
  exists dd,
    commit_row rec_id d pos g s =
      Some (d, mkCS (if bool_decide (ing ∈ cs_deleted s)
                     then default (cs_deleted s)
                            (list_remove ing (cs_deleted s))
                     else cs_deleted s)
                 (cs_objects s) (cs_conv s)
                 (cs_log s ++ [ModifyIng ing dd])) /\
    forall k, k <> "deleted" -> dd !! k = commit_dict d pos g !! k.
Proof.
  only_named.
  intros Hc. unfold commit_row. rewrite Hc, drop_unchanged_keeps_all.
  cbn [mbind option_bind].
  destruct (commit_dict_lookup d pos g) as (Hpos & _).
  assert (Hne : forall dd : gmap string pyval,
            dd !! "position" = Some (PInt pos) -> bool_decide (dd ≠ ∅) = true).
  { intros dd Hdd. apply bool_decide_eq_true. intros ->.
    by rewrite lookup_empty in Hdd. }
  destruct (bool_decide (ing ∈ cs_deleted s));
    destruct (pyval_truthy (ing_deleted ing)); cbn zeta beta iota;
    (rewrite Hne; [|by simplify_map_eq]);
    eexists; (split; [reflexivity|]); intros k Hk; by simplify_map_eq.
Qed.

Lemma commit_row_new rec_id d pos g s :
  isinstance_int (c0 d) || isinstance_RecRef (c0 d) = true ->
  let dd := <["recipe_id" := rec_id]> (commit_dict d pos g) in
  let obj := add_ing_result (cs_log s) dd in
  commit_row rec_id d pos g s =
    Some (set_c0 (OIng obj) d,
          mkCS (cs_deleted s) (cs_objects s ++ [obj])
            (conv_set (cs_conv s) (c0 d) (OIng obj))
            (cs_log s ++ [AddIng dd])).
Proof.
  only_named.
  intros Hc dd obj. unfold commit_row.
  destruct (c0 d) eqn:E; try done; fold dd; fold obj;
    by rewrite conv_get_set_eq.
Qed.

(** *** [list.remove] *)

Lemma list_remove_elem {A} `{EqDecision A} (x : A) (l : list A) :
  x ∈ l -> exists l', list_remove x l = Some l' /\ l ≡ₚ x :: l'.
Proof.
  only_named.
  induction l as [|y l IH]; intros Hx; [by apply elem_of_nil in Hx|].
  cbn. destruct (decide (x = y)) as [->|Hne]; [by eauto|].
  apply elem_of_cons in Hx as [?|Hx]; [done|].
  destruct (IH Hx) as (l' & -> & Hp). exists (y :: l'). split; [done|].
  rewrite Hp. apply Permutation_swap.
Qed.

Lemma list_remove_app_l {A} `{EqDecision A} (x : A) (l k : list A) :
  x ∈ l -> list_remove x (l ++ k) = (fun l' => l' ++ k) <$> list_remove x l.
Proof.
  only_named.
  induction l as [|y l IH]; intros Hx; [by apply elem_of_nil in Hx|].
  cbn. destruct (decide (x = y)) as [->|Hne]; [done|].
  apply elem_of_cons in Hx as [?|Hx]; [done|].
  rewrite (IH Hx). by destruct (list_remove x l).
Qed.



(** [remove_all] succeeds when every object to remove is tracked, and it
    leaves the objects appended during the commit alone. *)
Lemma remove_all_fold_None deleted :
  foldl (fun acc i => l ← acc; list_remove i l) None deleted
  = (None : option (list Ingredient)).
Proof. by induction deleted. Qed.

Lemma remove_all_submseteq deleted : forall objs news,
  deleted ⊆+ objs ->
  exists kept, remove_all deleted (objs ++ news) = Some (kept ++ news) /\
               kept ⊆+ objs.
Proof.
  only_named.
  unfold remove_all.
  induction deleted as [|x deleted IH]; intros objs news Hsub.
  { by exists objs. }
  apply submseteq_cons_l in Hsub as (k' & Hk & Hsub).
  assert (Hx : x ∈ objs) by (rewrite Hk; left).
  destruct (list_remove_elem x objs Hx) as (l' & Hl & Hp).
  cbn [foldl mbind option_bind]. rewrite (list_remove_app_l _ _ _ Hx), Hl.
  cbn [fmap option_fmap option_map].
  rewrite Hp in Hk. apply Permutation_cons_inv in Hk.
  rewrite <- Hk in Hsub.
  destruct (IH l' news Hsub) as (kept & -> & Hkept).
  exists kept. split; [done|]. trans l'; [done|].
  rewrite Hp. by apply submseteq_cons.
Qed.


(** *** The rows one after the other *)

Lemma commit_fold_spec rec_id xs : forall pos s,
  Forall (fun x : RowData * pyval => is_ingredient (c0 x.1) = true) xs ->
  exists s' calls news,
    commit_fold rec_id xs pos s = Some ((pos + Z.of_nat (length xs))%Z, s') /\
    cs_log s' = cs_log s ++ calls /\
    Forall2 (fun (x : RowData * pyval) call =>
               call_for x.1 call /\
               call_dict call !! "item" = Some (of_col (c3 x.1)) /\
               call_dict call !! "inggroup" = Some x.2) xs calls /\
    (fun call => call_dict call !! "position") <$> calls =
      (fun k => Some (PInt (pos + Z.of_nat k))) <$> seq 0 (length xs) /\
    cs_deleted s' ⊆+ cs_deleted s /\
    cs_objects s' = cs_objects s ++ news.
Proof.
  only_named.
  induction xs as [|[d g] xs IH]; intros pos s Hall.
  { exists s, [], []. cbn. rewrite Z.add_0_r, !app_nil_r. by repeat split. }
  apply Forall_cons in Hall as [Hd Hall]. cbn [fst] in Hd.
  cbn [commit_fold length].
  destruct (commit_dict_lookup d pos g) as (Hpos & Hgrp & _ & Hitem & _).
  assert (Hshift : forall n,
    (fun k => Some (PInt (pos + 1 + Z.of_nat k))) <$> seq 0 n =
    (fun k => Some (PInt (pos + Z.of_nat k))) <$> seq 1 n).
  { intros n. rewrite <- fmap_S_seq, <- list_fmap_compose.
    apply list_fmap_ext. intros _ k _. cbn. do 2 f_equal. lia. }
  destruct (c0 d) as [| |n|r|ing] eqn:Hc; try done.
  - (* a new item *)
    rewrite commit_row_new; [|by rewrite Hc].
    destruct (IH (pos + 1)%Z
      (mkCS (cs_deleted s)
         (cs_objects s ++
            [add_ing_result (cs_log s)
               (<["recipe_id" := rec_id]> (commit_dict d pos g))])
         (conv_set (cs_conv s) (c0 d)
            (OIng (add_ing_result (cs_log s)
                     (<["recipe_id" := rec_id]> (commit_dict d pos g)))))
         (cs_log s ++
            [AddIng (<["recipe_id" := rec_id]> (commit_dict d pos g))])) Hall)
      as (s' & calls & news & H1 & H2 & H3 & H4 & H5 & H6).
    cbn [cs_log cs_deleted cs_objects] in *.
    eexists s', (_ :: calls), (_ :: news).
    split; [rewrite H1; do 2 f_equal; lia|].
    split; [by rewrite H2, <- app_assoc|].
    split; [constructor; [|done]; cbn; rewrite Hc; by simplify_map_eq|].
    split; [|split; [done|by rewrite H6, <- app_assoc]].
    cbn [fmap list_fmap seq call_dict]. f_equal.
    + simplify_map_eq. do 2 f_equal. lia.
    + by rewrite H4, Hshift.
  - (* a recipe reference *)
    rewrite commit_row_new; [|by rewrite Hc].
    destruct (IH (pos + 1)%Z
      (mkCS (cs_deleted s)
         (cs_objects s ++
            [add_ing_result (cs_log s)
               (<["recipe_id" := rec_id]> (commit_dict d pos g))])
         (conv_set (cs_conv s) (c0 d)
            (OIng (add_ing_result (cs_log s)
                     (<["recipe_id" := rec_id]> (commit_dict d pos g)))))
         (cs_log s ++
            [AddIng (<["recipe_id" := rec_id]> (commit_dict d pos g))])) Hall)
      as (s' & calls & news & H1 & H2 & H3 & H4 & H5 & H6).
    cbn [cs_log cs_deleted cs_objects] in *.
    eexists s', (_ :: calls), (_ :: news).
    split; [rewrite H1; do 2 f_equal; lia|].
    split; [by rewrite H2, <- app_assoc|].
    split; [constructor; [|done]; cbn; rewrite Hc; by simplify_map_eq|].
    split; [|split; [done|by rewrite H6, <- app_assoc]].
    cbn [fmap list_fmap seq call_dict]. f_equal.
    + simplify_map_eq. do 2 f_equal. lia.
    + by rewrite H4, Hshift.
  - (* a stored ingredient *)
    destruct (commit_row_old rec_id d pos g s ing Hc) as (dd & -> & Hdd).
    match goal with
    | |- context [commit_fold _ _ _ ?s1] =>
        destruct (IH (pos + 1)%Z s1 Hall)
          as (s' & calls & news & H1 & H2 & H3 & H4 & H5 & H6)
    end.
    cbn [cs_log cs_deleted cs_objects] in *.
    eexists s', (_ :: calls), news.
    split; [rewrite H1; do 2 f_equal; lia|].
    split; [by rewrite H2, <- app_assoc|].
    split; [constructor; [|done]; cbn; by rewrite !Hdd|].
    split; [|split; [|done]].
    + cbn [fmap list_fmap seq call_dict]. f_equal.
      * rewrite Hdd, Hpos; [|done]. do 2 f_equal. lia.
      * by rewrite H4, Hshift.
    + trans (if bool_decide (ing ∈ cs_deleted s)
             then default (cs_deleted s) (list_remove ing (cs_deleted s))
             else cs_deleted s); [done|].
      destruct (bool_decide (ing ∈ cs_deleted s)) eqn:E; [|done].
      apply bool_decide_eq_true in E.
      destruct (list_remove_elem _ _ E) as (l' & -> & Hp). cbn.
      rewrite Hp. by apply submseteq_cons.
Qed.

(** *** Well-formed stores *)

Lemma well_formed_row_node d ks :
  well_formed_row (Node d ks) =
    match c0 d with
    | ONone => false
    | OStr _ => true
    | _ => match ks with [] => true | _ => false end
    end && well_formed ks.
Proof.
  only_named.
  reflexivity.
Qed.

Lemma ingredient_rows_cons r l :
  ingredient_rows (r :: l) =
    filter (fun d => isinstance_str (c0 d) = false) (row_flat r) ++
    ingredient_rows l.
Proof. unfold ingredient_rows. by rewrite tree_flat_cons, filter_app. Qed.

(** In a well-formed store the commit pass reaches every ingredient row,
    in display order. *)
Lemma well_formed_visited n : forall l g,
  tree_size l <= n -> well_formed l = true ->
  (visited_rows g l).*1 = ingredient_rows l /\
  Forall (fun x : RowData * pyval => is_ingredient (c0 x.1) = true)
    (visited_rows g l).
Proof.
  only_named.
  induction n as [|n IH]; intros l g Hn Hwf.
  { destruct l as [|[d ks] l]; [done|].
    rewrite tree_size_cons, row_size_node in Hn. lia. }
  destruct l as [|[d ks] l]; [done|].
  rewrite tree_size_cons, row_size_node in Hn.
  cbn [well_formed] in Hwf. rewrite well_formed_row_node in Hwf.
  apply andb_true_iff in Hwf as [Hrow Hl].
  apply andb_true_iff in Hrow as [Hd Hks].
  destruct (IH l g) as [IHl1 IHl2]; [lia|done|].
  cbn [visited_rows]. rewrite visited_row_node, ingredient_rows_cons.
  rewrite row_flat_node, filter_cons, fmap_app, Forall_app.
  destruct (c0 d) as [| |z|r|i] eqn:Hc; try done; cbn [isinstance_str].
  - (* a group *)
    destruct (IH ks (of_col (c1 d))) as [IHk1 IHk2]; [lia|done|].
    rewrite decide_False; [|first [done|by rewrite Hc]].
    by rewrite IHk1, IHl1.
  - destruct ks; [|done]. rewrite decide_True; [|first [done|by rewrite Hc]].
    split; [by rewrite IHl1|]. split; [|done].
    constructor; [|done]. first [done|by cbn; rewrite Hc].
  - destruct ks; [|done]. rewrite decide_True; [|first [done|by rewrite Hc]].
    split; [by rewrite IHl1|]. split; [|done].
    constructor; [|done]. first [done|by cbn; rewrite Hc].
  - destruct ks; [|done]. rewrite decide_True; [|first [done|by rewrite Hc]].
    split; [by rewrite IHl1|]. split; [|done].
    constructor; [|done]. first [done|by cbn; rewrite Hc].
Qed.

(** What [commit_ingredients] comes to on a well-formed store. *)
Lemma commit_ingredients_fold c :
  well_formed (imodel c) = true ->
  exists m' s' calls news kept,
    commit_fold (current_rec_id c) (visited_rows PNone (imodel c)) 0
      (mkCS (ingredient_objects c) (ingredient_objects c)
         (commited_items_converter c) (rd_log c))
      = Some (Z.of_nat (length (ingredient_rows (imodel c))), s') /\
    commit_rows (current_rec_id c) (imodel c) 0 PNone
      (mkCS (ingredient_objects c) (ingredient_objects c)
         (commited_items_converter c) (rd_log c))
      = Some (m', Z.of_nat (length (ingredient_rows (imodel c))), s') /\
    cs_log s' = rd_log c ++ calls /\
    cs_objects s' = ingredient_objects c ++ news /\
    cs_deleted s' ⊆+ ingredient_objects c /\
    remove_all (cs_deleted s') (cs_objects s') = Some (kept ++ news) /\
    kept ⊆+ ingredient_objects c /\
    Forall2 (fun d call =>
               call_for d call /\
               call_dict call !! "item" = Some (of_col (c3 d)))
      (ingredient_rows (imodel c)) calls /\
    (fun call => call_dict call !! "position") <$> calls =
      (fun k => Some (PInt (Z.of_nat k))) <$>
        seq 0 (length (ingredient_rows (imodel c))) /\
    commit_ingredients c =
      Some (mkIC m' (kept ++ news) (new_item_count c) (cs_conv s')
              (current_rec_id c)
              (rd_log c ++ calls ++
                 [ModifyIngs (cs_deleted s') {["deleted" := PBool true]}])
              (expand_log c) (next_oid c)).
Proof.
  only_named.
  intros Hwf.
  destruct (well_formed_visited _ (imodel c) PNone (le_n _) Hwf) as [Hv1 Hv2].
  set (s0 := mkCS (ingredient_objects c) (ingredient_objects c)
               (commited_items_converter c) (rd_log c)).
  destruct (commit_fold_spec (current_rec_id c) _ 0%Z s0 Hv2)
    as (s' & calls & news & H1 & H2 & H3 & H4 & H5 & H6).
  assert (Hlen : length (visited_rows PNone (imodel c)) =
                 length (ingredient_rows (imodel c))).
  { by rewrite <- Hv1, length_fmap. }
  rewrite Hlen, Z.add_0_l in H1. rewrite Hlen in H4.
  pose proof (commit_rows_fold (current_rec_id c) _ (imodel c) 0%Z PNone s0
                (le_n _)) as Hrows.
  rewrite H1 in Hrows.
  destruct (commit_rows (current_rec_id c) (imodel c) 0 PNone s0)
    as [[[m' n'] s'']|] eqn:Hcr; [|done].
  cbn in Hrows. injection Hrows as -> ->.
  cbn [cs_log cs_objects cs_deleted s0] in H2, H5, H6.
  destruct (remove_all_submseteq _ _ news H5) as (kept & Hrem & Hkept).
  rewrite <- H6 in Hrem.
  exists m', s', calls, news, kept.
  split; [done|]. split; [done|]. split; [done|]. split; [done|].
  split; [done|]. split; [done|]. split; [done|]. split; [|split].
  - rewrite <- Hv1. apply Forall2_fmap_l.
    eapply Forall2_impl; [exact H3|]. cbn. tauto.
  - rewrite H4. apply list_fmap_ext. intros _ k _. by rewrite Z.add_0_l.
  - unfold commit_ingredients. fold s0. rewrite Hcr. cbn [mbind option_bind].
    rewrite Hrem. cbn [mbind option_bind]. by rewrite H2, <- app_assoc.
Qed.

(** *** What is left in [deleted] *)




(** ** What the commit pass tells the database *)

(** X3.  On a well-formed store [commit_ingredients] makes one database
    call for each ingredient row, in display order, and none for a group
    row; the call for the k-th ingredient row (counting from 0) carries
    the row's item and [position] k.  One call to [modify_ings] follows. *)
Theorem commit_ingredients_positions c :
  well_formed (imodel c) = true ->
  exists c' calls deleted,
    commit_ingredients c = Some c' /\
    rd_log c' =
      rd_log c ++ calls ++ [ModifyIngs deleted {["deleted" := PBool true]}] /\
    Forall2 (fun d call =>
               call_for d call /\
               call_dict call !! "item" = Some (of_col (c3 d)))
      (ingredient_rows (imodel c)) calls /\
    (fun call => call_dict call !! "position") <$> calls =
      (fun k => Some (PInt (Z.of_nat k))) <$>
        seq 0 (length (ingredient_rows (imodel c))).
Proof.
  only_named.
  intros Hwf.
  destruct (commit_ingredients_fold c Hwf)
    as (m' & s' & calls & news & kept & _ & _ & _ & _ & _ & _ & _ & H1 & H2 & H3).
  eexists _, calls, _. split; [exact H3|]. by split.
Qed.


(** ** More on persistent references *)

(** X5.  [get_iter_from_persistent_ref] always leaves its loop within one
    step per row of the store, and an iterator it returns designates a
    row of the store whose column 0 passes the loop's test against the
    reference (as remapped by [commited_items_converter]). *)
Theorem get_iter_from_persistent_ref_sound c ref :
  (forall k, get_iter_from_persistent_ref_fuel (tree_size (imodel c) + k) c ref
             = Some (get_iter_from_persistent_ref c ref)) /\
  (forall it, get_iter_from_persistent_ref c ref = Some it ->
     exists w, get_value0 (imodel c) it = Some w /\
       ref_matches w (convert_ref (commited_items_converter c) ref) = true).
Proof.
  only_named. split.
  - intros k. by rewrite get_iter_fuel_walk, get_iter_walk.
  - intros it. rewrite get_iter_walk.
    destruct (walk_rows _ _ _ _) as [q| |] eqn:Hw; [|done..].
    intros [= <-].
    by apply (walk_rows_found (imodel c) _ q (tree_size (imodel c))
                [] (imodel c) 0 (imodel c)).
Qed.

(** ** New rows and their placeholders *)

(** What [add_ingredient_from_kwargs] does to the row it makes and to
    the rest of the controller. *)
Lemma add_ingredient_from_kwargs_state c g p fb ph kw c' it :
  add_ingredient_from_kwargs c g p fb ph kw = Some (c', it) ->
  exists v,
    get_value0 (imodel c') it = Some v /\
    tree_values (imodel c') ≡ₚ v :: tree_values (imodel c) /\
    v = (if pyval_truthy (default PNone (kw !! "refid")) then
           ORecRef (RecRef_init (next_oid c) (default PNone (kw !! "refid"))
                      (default (PStr "") (kw !! "item")))
         else match ph with
              | ONone => OInt (new_item_count c)
              | _ => ph
              end) /\
    new_item_count c' =
      (if pyval_truthy (default PNone (kw !! "refid")) then new_item_count c
       else match ph with
            | ONone => (new_item_count c + 1)%Z
            | _ => new_item_count c
            end) /\
    ingredient_objects c' = ingredient_objects c /\
    commited_items_converter c' = commited_items_converter c /\
    rd_log c' = rd_log c.
Proof.
  only_named. intros H.
  destruct (add_ingredient_from_kwargs_values _ _ _ _ _ _ _ _ H)
    as (v & H1 & H2 & _ & H3).
  exists v. split; [exact H1|]. split; [exact H2|]. split; [exact H3|].
  unfold add_ingredient_from_kwargs in H.
  destruct (_new_iter_ (imodel c) g p fb) as [[m1 it1]|]; [|done]. cbn in H.
  destruct (pyval_truthy (default PNone (kw !! "refid"))).
  - destruct (ts_update m1 it1 _) as [m2|]; [|done]. cbn in H.
    destruct (update_ingredient_row m2 it1 kw) as [m3|]; [|done].
    cbn in H. by injection H as <- <-.
  - destruct ph;
      (destruct (ts_update m1 it1 _) as [m2|]; [|done]; cbn in H;
       destruct (update_ingredient_row m2 it1 kw) as [m3|]; [|done];
       cbn in H; by injection H as <- <-).
Qed.

(** X6.  [add_ingredient_from_kwargs] makes one row and returns its
    iterator.  Column 0 of that row holds a new [RecRef] when the
    dictionary has a true [refid], else the placeholder given, else the
    integer [new_item_count], which is then incremented; the column 0 of
    the other rows, the tracked ingredient objects, the converter and the
    database are left alone. *)
Theorem add_ingredient_from_kwargs_one_row c g p fb ph kw c' it :
  add_ingredient_from_kwargs c g p fb ph kw = Some (c', it) ->
  exists v,
    get_persistent_ref_from_iter c' it = Some v /\
    tree_values (imodel c') ≡ₚ v :: tree_values (imodel c) /\
    v = (if pyval_truthy (default PNone (kw !! "refid")) then
           ORecRef (RecRef_init (next_oid c) (default PNone (kw !! "refid"))
                      (default (PStr "") (kw !! "item")))
         else match ph with
              | ONone => OInt (new_item_count c)
              | _ => ph
              end) /\
    new_item_count c' =
      (if pyval_truthy (default PNone (kw !! "refid")) then new_item_count c
       else match ph with
            | ONone => (new_item_count c + 1)%Z
            | _ => new_item_count c
            end) /\
    ingredient_objects c' = ingredient_objects c /\
    commited_items_converter c' = commited_items_converter c /\
    rd_log c' = rd_log c.
Proof. only_named. apply add_ingredient_from_kwargs_state. Qed.

(** X7.  The integer placeholders stay below [new_item_count]: when every
    integer in column 0 is smaller than the counter, a row added without
    a placeholder and without [refid] gets an integer no row holds yet,
    and every integer in column 0 is again smaller than the counter. *)
Theorem new_placeholder_is_fresh c g p fb kw c' it :
  (forall n, OInt n ∈ tree_values (imodel c) -> (n < new_item_count c)%Z) ->
  pyval_truthy (default PNone (kw !! "refid")) = false ->
  add_ingredient_from_kwargs c g p fb ONone kw = Some (c', it) ->
  get_persistent_ref_from_iter c' it = Some (OInt (new_item_count c)) /\
  (OInt (new_item_count c) ∉ tree_values (imodel c)) /\
  (forall n, OInt n ∈ tree_values (imodel c') -> (n < new_item_count c')%Z).
Proof.
  only_named. intros Hinv Hr H.
  destruct (add_ingredient_from_kwargs_state _ _ _ _ _ _ _ _ H)
    as (v & H1 & H2 & H3 & H4 & _).
  rewrite Hr in H3, H4. subst v. split; [exact H1|]. split.
  - intros Hin. apply Hinv in Hin. lia.
  - intros n Hn. rewrite H2 in Hn. rewrite H4.
    apply elem_of_cons in Hn as [[= ->]|Hn]; [lia|].
    apply Hinv in Hn. lia.
Qed.

(** ** Deleting rows *)









(** ** The commit pass at one row *)










(** In a store of two levels the search finds the one row that passes
    its test. *)
Lemma walk_two_level_unique (m : list Row) p v :
  two_level m -> get_value0 m p = Some v ->
  (forall q w, get_value0 m q = Some w -> ref_matches w v = true -> q = p) ->
  walk_rows v [] 0 m = Found p.
Proof.
  only_named. intros Htwo Hv Huniq.
  destruct (walk_rows_two_level v m 0 Htwo) as [q Hq].
  { eapply Exists_impl; [apply (two_level_row _ _ _ Htwo Hv)|].
    intros r [<-|Hk]; [left; apply ref_matches_refl|right].
    eapply Exists_impl; [exact Hk|].
    intros k <-. apply ref_matches_refl. }
  destruct (walk_rows_found m v q (tree_size m) [] m 0 m)
    as (w & Hq1 & Hq2); try done.
  by rewrite (Huniq q w Hq1 Hq2) in Hq.
Qed.


(** ** Deleting a row and bringing it back *)

(** Changes below one row, each written as a replacement of the list of
    rows there. *)
Lemma alter_as_replace f pp : forall (m rs rs' : list Row),
  siblings m pp = Some rs -> f rs = Some rs' ->
  alter_siblings f m pp = alter_siblings (fun _ => Some rs') m pp.
Proof.
  only_named.
  induction pp as [|a pp IH]; intros m rs rs' Hs Hf; cbn in *.
  - injection Hs as <-. done.
  - destruct (m !! a) as [[d ks]|]; [|done]. cbn in Hs.
    by rewrite (IH ks rs rs' Hs Hf).
Qed.

Lemma replace_total pp : forall (m rs rs' : list Row),
  siblings m pp = Some rs ->
  exists m1, alter_siblings (fun _ => Some rs') m pp = Some m1 /\
             siblings m1 pp = Some rs'.
Proof.
  only_named.
  induction pp as [|a pp IH]; intros m rs rs' Hs; cbn in *.
  - by exists rs'.
  - destruct (m !! a) as [[d ks]|] eqn:Ha; [|done]. cbn in Hs.
    destruct (IH ks rs rs' Hs) as (ks1 & -> & Hs1).
    eexists. split; [done|].
    rewrite list_lookup_insert_eq; [|by apply lookup_lt_Some in Ha]. done.
Qed.

Lemma replace_replace pp : forall (m m1 a b : list Row),
  alter_siblings (fun _ => Some a) m pp = Some m1 ->
  alter_siblings (fun _ => Some b) m1 pp =
    alter_siblings (fun _ => Some b) m pp.
Proof.
  only_named.
  induction pp as [|i pp IH]; intros m m1 a b H; cbn in *; [done|].
  destruct (m !! i) as [[d ks]|] eqn:Hi; [|done].
  destruct (alter_siblings (fun _ => Some a) ks pp) as [ks1|] eqn:Hk; [|done].
  injection H as <-.
  rewrite list_lookup_insert_eq; [|by apply lookup_lt_Some in Hi].
  rewrite (IH ks ks1 a b Hk).
  destruct (alter_siblings (fun _ => Some b) ks pp) as [ks2|]; [|done].
  by rewrite list_insert_insert_eq.
Qed.

Lemma replace_id pp : forall (m rs : list Row),
  siblings m pp = Some rs ->
  alter_siblings (fun _ => Some rs) m pp = Some m.
Proof.
  only_named.
  induction pp as [|a pp IH]; intros m rs Hs; cbn in *; [done|].
  destruct (m !! a) as [[d ks]|] eqn:Ha; [|done]. cbn in Hs.
  rewrite (IH ks rs Hs). by rewrite list_insert_id.
Qed.

(** The store operations at the row [pp ++ [j]]. *)
Lemma ts_remove_at (m : list Row) pp rs j r :
  siblings m pp = Some rs -> rs !! j = Some r ->
  ts_remove m (pp ++ [j]) =
    alter_siblings (fun _ => Some (delete j rs)) m pp.
Proof.
  only_named. intros Hs Hj. unfold ts_remove.
  rewrite (get_row_snoc _ _ _ _ Hs), Hj, last_snoc, path_parent_snoc.
  by apply alter_as_replace with rs.
Qed.

Lemma ts_insert_after_at (m : list Row) pp rs i r :
  siblings m pp = Some rs -> rs !! i = Some r ->
  ts_insert_after m (pp ++ [i]) =
    (fun m' => (m', pp ++ [S i])) <$>
      alter_siblings (fun _ => Some (insert_row (S i) empty_row rs)) m pp.
Proof.
  only_named. intros Hs Hi. unfold ts_insert_after.
  rewrite (get_row_snoc _ _ _ _ Hs), Hi, last_snoc, path_parent_snoc,
    path_succ_snoc.
  rewrite (alter_as_replace (fun rs => Some (insert_row (S i) empty_row rs))
             pp m rs _ Hs eq_refl).
  by destruct (alter_siblings _ m pp).
Qed.

Lemma ts_update_at (m : list Row) pp rs j d ks f :
  siblings m pp = Some rs -> rs !! j = Some (Node d ks) ->
  ts_update m (pp ++ [j]) f =
    alter_siblings (fun _ => Some (<[j := Node (f d) ks]> rs)) m pp.
Proof.
  only_named. intros Hs Hj. unfold ts_update.
  rewrite (get_row_snoc _ _ _ _ Hs), Hj, last_snoc, path_parent_snoc.
  by apply alter_as_replace with rs.
Qed.

Lemma insert_row_delete (rs : list Row) j r :
  rs !! j = Some r -> insert_row j r (delete j rs) = rs.
Proof.
  only_named. intros Hj. unfold insert_row.
  pose proof (lookup_lt_Some _ _ _ Hj) as Hlt.
  rewrite delete_take_drop, take_app_le, drop_app_ge;
    rewrite ?length_take; try lia.
  rewrite take_take, Nat.min_id.
  replace (j - j `min` length rs) with 0 by lia. rewrite drop_0.
  by apply take_drop_middle.
Qed.

Lemma get_data_cons (l : list Row) k rest :
  get_data l (k :: rest) =
    match l !! k with
    | Some r => match rest with
                | [] => Some (row_data r)
                | _ => get_data (row_kids r) rest
                end
    | None => None
    end.
Proof.
  only_named. unfold get_data. cbn [get_row].
  destruct (l !! k); [|done]. by destruct rest.
Qed.

(** A row left after a deletion among the rows below [pp] was a row of
    before; the rows before the deleted one keep their paths. *)
Lemma get_data_after_delete pp : forall (m m1 rs : list Row) j q x,
  siblings m pp = Some rs ->
  alter_siblings (fun _ => Some (delete j rs)) m pp = Some m1 ->
  get_data m1 q = Some x ->
  exists q', get_data m q' = Some x /\
    forall i, i < j -> q' = pp ++ [i] -> q = pp ++ [i].
Proof.
  only_named.
  induction pp as [|a pp IH]; intros m m1 rs j q x Hs H Hq;
    (destruct q as [|k rest]; [done|]); cbn in Hs, H.
  - injection Hs as <-. injection H as <-.
    rewrite get_data_cons in Hq.
    destruct (decide (k < j)) as [Hk|Hk].
    + rewrite list_lookup_delete_lt in Hq by done.
      exists (k :: rest). by rewrite get_data_cons.
    + rewrite list_lookup_delete_ge in Hq by lia.
      exists (S k :: rest). rewrite get_data_cons. split; [done|].
      intros i Hi [= E _]. lia.
  - destruct (m !! a) as [[da ks]|] eqn:Ha; [|done]. cbn in Hs.
    destruct (alter_siblings _ ks pp) as [ks1|] eqn:Hk; [|done].
    injection H as <-. rewrite get_data_cons in Hq.
    destruct (decide (k = a)) as [->|Hne].
    + rewrite list_lookup_insert_eq in Hq by (by apply lookup_lt_Some in Ha).
      cbn [row_data row_kids] in Hq.
      destruct rest as [|b rest].
      * exists [a]. rewrite get_data_cons, Ha. split; [done|].
        intros i _ [= E]. by destruct pp.
      * destruct (IH ks ks1 rs j (b :: rest) x Hs Hk Hq) as (q' & Hq1 & Hq2).
        destruct q' as [|b' rest']; [done|].
        exists (a :: b' :: rest'). rewrite get_data_cons, Ha. split; [done|].
        intros i Hi [= E]. by rewrite (Hq2 i Hi E).
    + rewrite list_lookup_insert_ne in Hq by done.
      exists (k :: rest). rewrite get_data_cons. split; [done|].
      intros i _ [= E _]. done.
Qed.

Lemma two_level_after_delete (m m1 rs : list Row) pp j r :
  two_level m -> siblings m pp = Some rs -> rs !! j = Some r ->
  alter_siblings (fun _ => Some (delete j rs)) m pp = Some m1 ->
  two_level m1.
Proof.
  only_named. unfold two_level. intros Htwo Hs Hj H.
  destruct pp as [|g [|h rest]]; cbn in Hs, H.
  - injection Hs as <-. injection H as <-. by apply Forall_delete.
  - destruct (m !! g) as [[dg ks]|] eqn:Hg; [|done]. cbn in Hs, H.
    injection Hs as <-. injection H as <-.
    apply Forall_insert; [done|]. cbn [row_kids].
    apply Forall_delete.
    by apply (Forall_lookup_1 _ _ _ _ Htwo Hg).
  - destruct (m !! g) as [[dg ks]|] eqn:Hg; [|done]. cbn in Hs.
    destruct (ks !! h) as [kh|] eqn:Hh; [|done].
    pose proof (Forall_lookup_1 _ _ _ _ Htwo Hg) as Hks. cbn in Hks.
    rewrite (Forall_lookup_1 _ _ _ _ Hks Hh) in Hs.
    destruct rest; cbn in Hs; [|done]. injection Hs as <-. done.
Qed.

Lemma walk_no_match (m : list Row) ref :
  (forall q w, get_value0 m q = Some w -> ref_matches w ref = false) ->
  match walk_rows ref [] 0 m with Found q => Some q | _ => None end = None.
Proof.
  only_named. intros Hnone.
  destruct (walk_rows ref [] 0 m) as [q| |] eqn:Hw; [|done..].
  destruct (walk_rows_found m ref q (tree_size m) [] m 0 m)
    as (w & Hq1 & Hq2); try done.
  by rewrite (Hnone q w Hq1) in Hq2.
Qed.

(** Writing a row's own dictionary into a row that has only column 0
    set gives the row back. *)
Lemma update_row_data_restore d :
  isinstance_int (c0 d) = true ->
  update_row_data (rowdict_of d) (mkRowData (c0 d) None None None false)
    = Some d.
Proof.
  only_named. intros Hint.
  destruct d as [v a u i o]. cbn [c0] in *.
  destruct v; try done.
  unfold update_row_data, rowdict_of, get_extra_ingredient_attributes.
  cbn [c0 c1 c2 c3 c4 of_col].
  destruct a, u, i; cbn [of_col]; simplify_map_eq;
    repeat match goal with
           | |- context [if ?b then _ else _] => destruct b
           end; simplify_map_eq; done.
Qed.

(** What [delete_iters] records for one row without children that is
    not the first row below a group. *)
Lemma delete_iters_info_leaf c rx pp j d prev :
  get_row (imodel c) (pp ++ [j]) = Some (Node d []) ->
  match j with
  | 0 => pp = [] /\ prev = ONone
  | S i => path_prev (pp ++ [S i]) = Some (pp ++ [i]) /\
           get_value0 (imodel c) (pp ++ [i]) = Some prev
  end ->
  delete_iters_info c rx [pp ++ [j]] =
    Some ([c0 d], [mkUndoInfo (rowdict_of d) prev (c0 d) [] false]).
Proof.
  clear - path_prev. intros Hrow Hprev.
  set (p := pp ++ [j]) in *.
  assert (Hcond :
    match iter_parent (imodel c) p ≫= get_path (imodel c) with
    | Some pp' => bool_decide (pp' ∈ [p])
    | None => false
    end = false).
  { unfold iter_parent. subst p. rewrite path_parent_snoc, Hrow.
    destruct pp as [|a pp]; [done|]. cbn [mbind option_bind].
    unfold get_path. destruct (get_row (imodel c) (a :: pp)); [|done].
    apply bool_decide_eq_false. rewrite list_elem_of_singleton. intros E.
    apply (f_equal length) in E. rewrite length_app in E. cbn in E. lia. }
  assert (Hinfo : _get_undo_info_for_iter_ c p =
                    Some (mkChildInfo (rowdict_of d) prev (c0 d))).
  { unfold _get_undo_info_for_iter_, get_rowdict, get_path, get_value0,
      get_data.
    rewrite Hrow. cbn [fmap option_fmap option_map mbind option_bind row_data].
    unfold _get_prev_path_. subst p. rewrite last_snoc.
    destruct j as [|i].
    - destruct Hprev as [-> ->]. done.
    - destruct Hprev as [-> Hv].
      assert (Hp : get_persistent_ref_from_path c (pp ++ [i]) = Some prev).
      { unfold get_persistent_ref_from_path, get_iter,
          get_persistent_ref_from_iter.
        unfold get_value0, get_data in Hv |- *.
        destruct (get_row (imodel c) (pp ++ [i])) as [r|] eqn:Er; [|done].
        by rewrite Er. }
      destruct (pp ++ [i]) eqn:E; [by destruct pp|].
      by rewrite Hp. }
  unfold delete_iters_info.
  assert (Hpaths : mapM (get_path (imodel c)) [p] = Some [p]).
  { cbn. unfold get_path. by rewrite Hrow. }
  rewrite Hpaths. cbn [mbind option_bind foldl].
  unfold get_persistent_ref_from_iter, get_value0, get_data.
  rewrite Hrow.
  cbn [fmap option_fmap option_map mbind option_bind row_data row_kids length
         seq].
  rewrite Hcond, Hinfo. done.
Qed.

Lemma rowdict_no_refid d : rowdict_of d !! "refid" = None.
Proof.
  only_named. unfold rowdict_of, get_extra_ingredient_attributes.
  repeat match goal with
         | |- context [match ?x with _ => _ end] => destruct x eqn:?
         end; by simplify_map_eq.
Qed.

Lemma replace_step pp (m m1 a b : list Row) :
  alter_siblings (fun _ => Some a) m pp = Some m1 ->
  exists m2,
    alter_siblings (fun _ => Some b) m1 pp = Some m2 /\
    alter_siblings (fun _ => Some b) m pp = Some m2 /\
    siblings m1 pp = Some a.
Proof.
  only_named. intros H.
  destruct (alter_siblings_flat _ _ _ _ H)
    as (rs & rs' & _ & _ & Hs & [= <-] & Hs1 & _).
  destruct (replace_total pp m1 a b Hs1) as (m2 & H2 & _).
  exists m2. split; [done|]. split; [|done].
  by rewrite <- (replace_replace pp m m1 a b H).
Qed.

(** The row made by [_new_iter_] for the row that was deleted. *)
Lemma new_iter_after_delete (m m1 rs : list Row) pp j r :
  siblings m pp = Some rs -> rs !! j = Some r ->
  (j = 0 -> pp = []) ->
  alter_siblings (fun _ => Some (delete j rs)) m pp = Some m1 ->
  exists m2,
    _new_iter_ m1 None
      (match j with 0 => None | S i => Some (pp ++ [i]) end) false
      = Some (m2, pp ++ [j]) /\
    alter_siblings (fun _ => Some (insert_row j empty_row (delete j rs))) m pp
      = Some m2.
Proof.
  only_named. intros Hs Hj Hfirst H.
  destruct (replace_step pp m m1 _
              (insert_row j empty_row (delete j rs)) H) as (m2 & H1 & H2 & Hs1).
  exists m2. split; [|done].
  destruct j as [|i].
  - rewrite (Hfirst eq_refl) in *. cbn in H, H1. injection H as <-.
    injection H1 as <-. done.
  - unfold _new_iter_. cbn [mbind option_bind].
    assert (Hi : delete (S i) rs !! i = rs !! i)
      by (apply list_lookup_delete_lt; lia).
    destruct (rs !! i) as [ri|] eqn:Hri.
    + rewrite (ts_insert_after_at m1 pp _ i ri Hs1 Hi), H1. done.
    + apply lookup_ge_None in Hri. apply lookup_lt_Some in Hj. lia.
Qed.

(** Adding the deleted row again from what was recorded of it. *)
Lemma re_add_row c pp j d rs m1 :
  siblings (imodel c) pp = Some rs -> rs !! j = Some (Node d []) ->
  isinstance_int (c0 d) = true ->
  (j = 0 -> pp = []) ->
  alter_siblings (fun _ => Some (delete j rs)) (imodel c) pp = Some m1 ->
  add_ingredient_from_kwargs (with_imodel c m1) None
    (match j with 0 => None | S i => Some (pp ++ [i]) end) false
    (c0 d) (rowdict_of d) = Some (c, pp ++ [j]).
Proof.
  only_named. intros Hs Hj Hint Hfirst H.
  destruct (new_iter_after_delete _ _ _ _ _ _ Hs Hj Hfirst H)
    as (m2 & Hnew & H2).
  unfold add_ingredient_from_kwargs. cbn [imodel with_imodel].
  rewrite Hnew. cbn [mbind option_bind].
  rewrite rowdict_no_refid. cbn [default pyval_truthy].
  destruct (c0 d) as [| |n| |] eqn:Hc; try done.
  cbn [new_item_count next_oid with_imodel].
  assert (Hlen : j <= length (delete j rs)).
  { pose proof (lookup_lt_Some _ _ _ Hj). rewrite length_delete; [lia|by eexists]. }
  set (e := mkRowData (OInt n) None None None false).
  (* column 0 *)
  destruct (replace_step pp _ m2 _ (insert_row j (Node e []) (delete j rs)) H2)
    as (m3 & H3 & H3' & Hs2).
  assert (Hu1 : ts_update m2 (pp ++ [j]) (set_c0 (OInt n)) = Some m3).
  { rewrite (ts_update_at m2 pp _ j _ [] _ Hs2 (insert_row_lookup _ _ _ Hlen)).
    by rewrite insert_row_replace. }
  rewrite Hu1. cbn [mbind option_bind].
  (* the other columns *)
  destruct (replace_step pp _ m3 _ rs H3') as (m4 & H4 & H4' & Hs3).
  rewrite (replace_id _ _ _ Hs) in H4'. injection H4' as <-.
  assert (Hu2 : update_ingredient_row m3 (pp ++ [j]) (rowdict_of d)
                = Some (imodel c)).
  { unfold update_ingredient_row, get_data.
    rewrite (get_row_snoc _ _ _ _ Hs3), (insert_row_lookup _ _ _ Hlen).
    cbn [fmap option_fmap option_map mbind option_bind row_data].
    pose proof (update_row_data_restore d) as Hr. rewrite Hc in Hr.
    fold e in Hr. rewrite Hr; [|done]. cbn [mbind option_bind].
    rewrite (ts_update_at m3 pp _ j _ [] _ Hs3 (insert_row_lookup _ _ _ Hlen)).
    by rewrite insert_row_replace, (insert_row_delete _ _ _ Hj). }
  rewrite Hu2. cbn [mbind option_bind]. by destruct c.
Qed.

Lemma undelete_one_leaf c pp j d rs m1 prev :
  siblings (imodel c) pp = Some rs -> rs !! j = Some (Node d []) ->
  isinstance_int (c0 d) = true ->
  (j = 0 -> pp = []) ->
  alter_siblings (fun _ => Some (delete j rs)) (imodel c) pp = Some m1 ->
  get_iter_from_persistent_ref (with_imodel c m1) prev =
    match j with 0 => None | S i => Some (pp ++ [i]) end ->
  undelete_one (with_imodel c m1)
    (mkUndoInfo (rowdict_of d) prev (c0 d) [] false) = Some c.
Proof.
  clear - row_equal move_iter get_amount_as_string.
  intros Hs Hj Hint Hfirst H Hprev.
  unfold undelete_one.
  cbn [ui_rowdic ui_prev_ref ui_ing_obj ui_children ui_expanded].
  rewrite Hprev.
  replace (py_truthy (c0 d) && isinstance_str (c0 d)) with false
    by (destruct (c0 d); try done; cbn; by rewrite andb_false_r).
  rewrite Hint. cbn [orb].
  rewrite (re_add_row c pp j d rs m1 Hs Hj Hint Hfirst H).
  done.
Qed.

Lemma get_value0_data (m : list Row) q w :
  get_value0 m q = Some w -> exists x, get_data m q = Some x /\ c0 x = w.
Proof.
  only_named. unfold get_value0. intros H.
  destruct (get_data m q) as [x|]; [|done]. injection H as <-. by exists x.
Qed.

(** X10.  Deleting and undoing, for a row that holds an integer
    placeholder, has no children and is not the first row below a
    group.  In a store of two levels, when the row's reference and the
    reference of the row before it (if there is one) each pass the
    search test on their own row only and are not remapped,
    [delete_iters] records the row's dictionary, the reference of the
    row before and the placeholder; [do_delete_iters] removes the row;
    and [do_undelete_iters] on what was recorded gives back the
    controller of before the deletion: the same tree, counters and
    tracked objects. *)
Theorem undo_delete_restores_new_row c rx pp j d :
  two_level (imodel c) ->
  get_row (imodel c) (pp ++ [j]) = Some (Node d []) ->
  isinstance_int (c0 d) = true ->
  (forall q w, get_value0 (imodel c) q = Some w ->
     ref_matches w (c0 d) = true -> q = pp ++ [j]) ->
  convert_ref (commited_items_converter c) (c0 d) = c0 d ->
  match j with
  | 0 =>
      pp = [] /\
      forall q w, get_value0 (imodel c) q = Some w ->
        ref_matches w (convert_ref (commited_items_converter c) ONone) = false
  | S i =>
      path_prev (pp ++ [S i]) = Some (pp ++ [i]) /\
      exists v,
        get_value0 (imodel c) (pp ++ [i]) = Some v /\
        (forall q w, get_value0 (imodel c) q = Some w ->
           ref_matches w v = true -> q = pp ++ [i]) /\
        convert_ref (commited_items_converter c) v = v
  end ->
  exists refs infos c1,
    delete_iters_info c rx [pp ++ [j]] = Some (refs, infos) /\
    do_delete_iters c refs = Some c1 /\
    ts_remove (imodel c) (pp ++ [j]) = Some (imodel c1) /\
    do_undelete_iters c1 infos = Some c.
Proof.
  clear - row_equal path_prev move_iter get_amount_as_string.
  intros Htwo Hrow Hint Huniq Hconv Hprev.
  destruct (get_row_snoc_inv _ _ _ _ Hrow) as (rs & Hs & Hj).
  destruct (replace_total pp (imodel c) rs (delete j rs) Hs) as (m1 & H1 & Hs1).
  pose proof (two_level_after_delete _ _ _ _ _ _ Htwo Hs Hj H1) as Htwo1.
  set (prev := match j with
               | 0 => ONone
               | S i => default ONone (get_value0 (imodel c) (pp ++ [i]))
               end).
  exists [c0 d], [mkUndoInfo (rowdict_of d) prev (c0 d) [] false],
    (with_imodel c m1).
  assert (Hrem : ts_remove (imodel c) (pp ++ [j]) = Some m1).
  { by rewrite (ts_remove_at _ _ _ _ _ Hs Hj). }
  assert (Hold : forall q w, get_value0 m1 q = Some w ->
            exists q', get_value0 (imodel c) q' = Some w /\
              forall i, i < j -> q' = pp ++ [i] -> q = pp ++ [i]).
  { intros q w Hq. apply get_value0_data in Hq as (x & Hx & <-).
    destruct (get_data_after_delete _ _ _ _ _ _ _ Hs H1 Hx) as (q' & Hq1 & Hq2).
    exists q'. split; [|done]. unfold get_value0. by rewrite Hq1. }
  split; [|split; [|split; [exact Hrem|]]].
  - apply delete_iters_info_leaf; [done|]. subst prev.
    destruct j as [|i]; [by destruct Hprev|].
    destruct Hprev as (Hpp & v & Hv & _). by rewrite Hv.
  - unfold do_delete_iters. cbn [foldl mbind option_bind].
    rewrite get_iter_walk, Hconv.
    rewrite (walk_two_level_unique _ (pp ++ [j]) (c0 d) Htwo); [|
      |exact Huniq].
    + by rewrite Hrem.
    + unfold get_value0, get_data. by rewrite Hrow.
  - unfold do_undelete_iters. cbn [foldl mbind option_bind].
    apply (undelete_one_leaf c pp j d rs m1 prev Hs Hj Hint); [| done |].
    + intros ->. by destruct Hprev.
    + rewrite get_iter_walk. cbn [imodel commited_items_converter with_imodel].
      subst prev. destruct j as [|i].
      * destruct Hprev as [_ Hnone]. apply walk_no_match.
        intros q w Hq. destruct (Hold q w Hq) as (q' & Hq' & _).
        by apply (Hnone q').
      * destruct Hprev as (_ & v & Hv & Hone & Hcv). rewrite Hv.
        cbn [default id]. rewrite Hcv.
        rewrite (walk_two_level_unique m1 (pp ++ [i]) v Htwo1); [done| |].
        -- unfold get_value0, get_data in Hv |- *.
           rewrite (get_row_snoc _ _ _ _ Hs1).
           rewrite (get_row_snoc _ _ _ _ Hs) in Hv.
           by rewrite list_lookup_delete_lt by lia.
        -- intros q w Hq Hm. destruct (Hold q w Hq) as (q' & Hq' & Hback).
           apply (Hback i); [lia|]. by apply (Hone q' w).
Qed.

End Controller.

(** * The model on concrete inputs *)

(** Goes through the paths of a small store: used to show that a value
    sits in one row only. *)
Ltac split_path Hq :=
  unfold get_value0, get_data in Hq;
  repeat (cbn in Hq;
          match type of Hq with
          | context [_ !! ?n] => is_var n; destruct n
          | context [get_row _ ?x] => is_var x; destruct x
          | context [match ?x with _ => _ end] => is_var x; destruct x
          end);
  cbn in Hq; try discriminate Hq.

Ltac by_paths Hq Hm :=
  split_path Hq; try reflexivity;
  injection Hq as <-; vm_compute in Hm; discriminate Hm.

(** C5, counterexample.  [Sample.nested] holds a group inside a group and
    then the row [1], whose reference occurs in that row only and is not
    remapped; the search climbs one level from the innermost row, finds
    no next sibling there and gives up, so the reference of row [1]
    resolves to nothing. *)
Lemma persistent_ref_lost_below_nested_group :
  get_persistent_ref_from_iter Sample.nested [1] = Some (OInt 1) /\
  (forall q w, get_value0 (imodel Sample.nested) q = Some w ->
     ref_matches Sample.row_equal w (OInt 1) = true -> q = [1]) /\
  convert_ref (commited_items_converter Sample.nested) (OInt 1) = OInt 1 /\
  get_iter_from_persistent_ref Sample.row_equal Sample.nested (OInt 1) = None /\
  (forall k, get_iter_from_persistent_ref_fuel Sample.row_equal
               (tree_size (imodel Sample.nested) + k) Sample.nested (OInt 1)
             = Some None).
Proof.
  split; [reflexivity|]. split; [intros q w Hq Hm; by_paths Hq Hm|].
  split; [reflexivity|]. split; [reflexivity|].
  intros k. rewrite get_iter_fuel_walk. reflexivity.
Qed.

(** C5, witness: the second ingredient of the group of [Sample.grouped]. *)
Lemma persistent_ref_round_trip_witness :
  two_level (imodel Sample.grouped) /\
  get_persistent_ref_from_iter Sample.grouped [0; 1] = Some (OInt 1) /\
  get_iter_from_persistent_ref Sample.row_equal Sample.grouped (OInt 1)
    = Some [0; 1] /\
  get_iter_from_persistent_ref Sample.row_equal Sample.grouped (OInt 7) = None.
Proof.
  assert (Htwo : two_level (imodel Sample.grouped)).
  { repeat constructor. }
  split; [exact Htwo|]. split; [reflexivity|]. split.
  - apply (proj1 (persistent_ref_round_trip Sample.row_equal Sample.grouped)
             [0; 1] (OInt 1) Htwo eq_refl).
    + intros q w Hq Hm. by_paths Hq Hm.
    + reflexivity.
  - apply (proj2 (persistent_ref_round_trip Sample.row_equal Sample.grouped)
             (OInt 7)).
    intros q w Hq.
    split_path Hq; injection Hq as <-; reflexivity.
Defined.

(** C1, failing input.  [Sample.unchanged] shows one stored ingredient
    with the very values of the stored object; the commit still hands
    the whole row to [modify_ing_and_update_keydic], since [hasattr(d,
    att)] asks for an attribute of the dictionary, not for a key. *)
Lemma commit_unchanged_row_still_written :
  Forall (fun att =>
            ing_getattr Sample.flour att =
              commit_dict Sample.parse_range
                (mkRowData (OIng Sample.flour) (Some "2") (Some "cup")
                   (Some "flour") false) 0 PNone !! att)
    compared_attributes /\
  rd_log <$> commit_ingredients Sample.parse_range Sample.add_ing_result
               Sample.unchanged =
    Some [ModifyIng Sample.flour
            (<["amount" := PStr "2"]> (<["unit" := PStr "cup"]>
               (<["item" := PStr "flour"]> (<["ingkey" := PStr "flour"]>
                  (<["position" := PInt 0]> (<["inggroup" := PNone]>
                     (<["optional" := PBool false]> ∅)))))));
          ModifyIngs [] {["deleted" := PBool true]}].
Proof. split; [repeat constructor|]. vm_compute. reflexivity. Qed.

(** C3, failing input.  In [Sample.grouped] the first ingredient of the
    group is deleted with [delete_iters]; running the inverse action
    that was registered puts the row back after the group, at the top
    level, not into the group. *)
Lemma undo_delete_of_first_child_leaves_group :
  exists em1 u em2,
    let em := mkEM Sample.grouped [] [] in
    delete_iters Sample.row_equal Sample.get_amount_as_string
      Sample.path_prev Sample.move_iter Sample.parse_ingredient
      (fun _ _ => PNone) (fun a => a) Sample.row_expanded em [[0; 0]] false
      = Some em1 /\
    last (history em1) = Some u /\
    imodel (ingController em1) =
      [Sample.group "dough" [Sample.leaf (OInt 1) "1" "" "egg"]] /\
    run_action Sample.row_equal Sample.get_amount_as_string
      Sample.path_prev Sample.move_iter Sample.parse_ingredient
      (fun _ _ => PNone) (fun a => a) Sample.row_expanded
      (uo_inverse_action u) em1 = Some em2 /\
    imodel (ingController em2) =
      [Sample.group "dough" [Sample.leaf (OInt 1) "1" "" "egg"];
       Sample.leaf (OInt 0) "2" "cup" "flour"] /\
    imodel (ingController em2) <> imodel (ingController em).
Proof.
  eexists _, _, _. cbn zeta.
  split; [vm_compute; reflexivity|].
  split; [reflexivity|]. split; [reflexivity|].
  split; [vm_compute; reflexivity|].
  split; [reflexivity|]. discriminate.
Qed.

(** X1, witness: a group asked for after the second ingredient of the
    group of [Sample.grouped] lands after that group, at the top level. *)
Lemma add_group_at_top_level_witness :
  to_col (PStr "sauce") = Some (Some "sauce") /\
  is_Some (get_row (imodel Sample.grouped) [0; 1]) /\
  add_group Sample.move_iter Sample.grouped (PStr "sauce") (Some [0; 1]) []
    true =
    Some (with_imodel Sample.grouped
            (imodel Sample.grouped ++
               [Node (mkRowData (OStr "GROUP sauce") (Some "sauce")
                        None None false) []]),
          [1]).
Proof.
  split; [reflexivity|]. split; [by eexists|].
  exact (proj1 (proj2 (proj2
    (add_group_at_top_level Sample.move_iter Sample.grouped (PStr "sauce")
       (Some [0; 1]) true (Some "sauce") eq_refl
       (ex_intro _ _ eq_refl))))).
Defined.

(** X2, witness: asked to add the current recipe (id 1) and another one
    (id 5) to [Sample.grouped], the selector shows one message and makes
    one row, a reference to recipe 5. *)
Lemma RecSelector_ok_witness :
  exists c' created,
    RecSelector_ok Sample.yield_selector_run Sample.grouped None
      [mkRecipe (PInt 1) PNone (PStr "dough");
       mkRecipe (PInt 5) PNone (PStr "icing")] = Some (c', 1) /\
    tree_values (imodel c') ≡ₚ created ++ tree_values (imodel Sample.grouped) /\
    Forall (fun v => is_self_reference (PInt 1) v = false) created /\
    length created = 1.
Proof.
  assert (H : exists c',
    RecSelector_ok Sample.yield_selector_run Sample.grouped None
      [mkRecipe (PInt 1) PNone (PStr "dough");
       mkRecipe (PInt 5) PNone (PStr "icing")] = Some (c', 1)).
  { eexists. vm_compute. reflexivity. }
  destruct H as [c' H].
  destruct (RecSelector_ok_no_self_reference _ _ _ _ _ _ H)
    as (created & H1 & H2 & H3 & _).
  exists c', created. split; [exact H|]. split; [exact H1|].
  split; [exact H2|exact H3].
Defined.

(** X3, witness: [Sample.mixed] is well formed; its three ingredient rows
    are committed with positions 0, 1 and 2. *)
Lemma commit_ingredients_positions_witness :
  well_formed (imodel Sample.mixed) = true /\
  exists c' calls deleted,
    commit_ingredients Sample.parse_range Sample.add_ing_result Sample.mixed
      = Some c' /\
    rd_log c' =
      rd_log Sample.mixed ++ calls ++
        [ModifyIngs deleted {["deleted" := PBool true]}] /\
    Forall2 (fun d call =>
               call_for d call /\
               call_dict call !! "item" = Some (of_col (c3 d)))
      (ingredient_rows (imodel Sample.mixed)) calls /\
    (fun call => call_dict call !! "position") <$> calls =
      [Some (PInt 0); Some (PInt 1); Some (PInt 2)].
Proof.
  split; [reflexivity|].
  exact (commit_ingredients_positions Sample.parse_range Sample.add_ing_result
           Sample.mixed eq_refl).
Defined.


(** X5, witness: in [Sample.grouped] the reference [1] resolves to the
    second row of the group, which holds it. *)
Lemma get_iter_from_persistent_ref_sound_witness :
  get_iter_from_persistent_ref Sample.row_equal Sample.grouped (OInt 1)
    = Some [0; 1] /\
  exists w,
    get_value0 (imodel Sample.grouped) [0; 1] = Some w /\
    ref_matches Sample.row_equal w
      (convert_ref (commited_items_converter Sample.grouped) (OInt 1)) = true.
Proof.
  split; [reflexivity|].
  exact (proj2 (get_iter_from_persistent_ref_sound Sample.row_equal
                  Sample.grouped (OInt 1)) [0; 1] eq_refl).
Defined.

(** X6, witness: a row for salt asked for after the first ingredient of
    the group of [Sample.grouped] gets the placeholder 2. *)
Lemma add_ingredient_from_kwargs_one_row_witness :
  exists c' it v,
    add_ingredient_from_kwargs Sample.grouped None (Some [0; 0]) true ONone
      {["item" := PStr "salt"]} = Some (c', it) /\
    get_persistent_ref_from_iter c' it = Some v /\
    tree_values (imodel c') ≡ₚ v :: tree_values (imodel Sample.grouped) /\
    v = OInt 2 /\
    new_item_count c' = 3%Z.
Proof.
  assert (H : exists c' it,
    add_ingredient_from_kwargs Sample.grouped None (Some [0; 0]) true ONone
      {["item" := PStr "salt"]} = Some (c', it)).
  { eexists _, _. vm_compute. reflexivity. }
  destruct H as (c' & it & H).
  destruct (add_ingredient_from_kwargs_one_row _ _ _ _ _ _ _ _ H)
    as (v & H1 & H2 & H3 & H4 & _).
  exists c', it, v. split; [exact H|]. split; [exact H1|].
  split; [exact H2|]. split; [exact H3|exact H4].
Defined.

(** X7, witness: [Sample.grouped] holds the placeholders 0 and 1 and its
    counter is 2. *)
Lemma new_placeholder_is_fresh_witness :
  (forall n, OInt n ∈ tree_values (imodel Sample.grouped) ->
     (n < new_item_count Sample.grouped)%Z) /\
  exists c' it,
    add_ingredient_from_kwargs Sample.grouped None (Some [0; 0]) true ONone
      {["item" := PStr "salt"]} = Some (c', it) /\
    get_persistent_ref_from_iter c' it = Some (OInt 2) /\
    (OInt 2 ∉ tree_values (imodel Sample.grouped)) /\
    (forall n, OInt n ∈ tree_values (imodel c') -> (n < new_item_count c')%Z).
Proof.
  assert (Hinv : forall n, OInt n ∈ tree_values (imodel Sample.grouped) ->
                   (n < new_item_count Sample.grouped)%Z).
  { intros n Hn.
    change (tree_values (imodel Sample.grouped))
      with [OStr "GROUP dough"; OInt 0; OInt 1] in Hn.
    change (new_item_count Sample.grouped) with 2%Z.
    rewrite !elem_of_cons, elem_of_nil in Hn.
    destruct Hn as [Hn|[Hn|[Hn|[]]]]; [discriminate Hn|..];
      injection Hn as ->; lia. }
  split; [exact Hinv|].
  assert (H : exists c' it,
    add_ingredient_from_kwargs Sample.grouped None (Some [0; 0]) true ONone
      {["item" := PStr "salt"]} = Some (c', it)).
  { eexists _, _. vm_compute. reflexivity. }
  destruct H as (c' & it & H).
  exists c', it. split; [exact H|].
  exact (new_placeholder_is_fresh Sample.grouped None (Some [0; 0]) true
           {["item" := PStr "salt"]} c' it Hinv eq_refl H).
Defined.



(** X10, witness: the second ingredient of the group of
    [Sample.grouped] is deleted and brought back. *)
Lemma undo_delete_restores_new_row_witness :
  two_level (imodel Sample.grouped) /\
  get_row (imodel Sample.grouped) [0; 1]
    = Some (Sample.leaf (OInt 1) "1" "" "egg") /\
  exists refs infos c1,
    delete_iters_info Sample.path_prev Sample.grouped Sample.row_expanded
      [[0; 1]] = Some (refs, infos) /\
    do_delete_iters Sample.row_equal Sample.grouped refs = Some c1 /\
    ts_remove (imodel Sample.grouped) [0; 1] = Some (imodel c1) /\
    do_undelete_iters Sample.row_equal Sample.get_amount_as_string
      Sample.move_iter c1 infos = Some Sample.grouped.
Proof.
  assert (Htwo : two_level (imodel Sample.grouped)).
  { repeat constructor. }
  split; [exact Htwo|]. split; [reflexivity|].
  apply (undo_delete_restores_new_row Sample.row_equal
           Sample.get_amount_as_string Sample.path_prev Sample.move_iter
           Sample.grouped Sample.row_expanded [0] 1
           (mkRowData (OInt 1) (Some "1") (Some "") (Some "egg") false)
           Htwo eq_refl eq_refl).
  - intros q w Hq Hm. by_paths Hq Hm.
  - reflexivity.
  - split; [reflexivity|]. exists (OInt 0). split; [reflexivity|].
    split; [|reflexivity]. intros q w Hq Hm. by_paths Hq Hm.
Defined.
